(** * html-lint: the rule battery, the tree walk and the nesting scan

    A shallow embedding of [html_lint.go] (package [html_lint]) and of the
    driver [cmd/html-lint/html-lint.go], with the properties the
    specification states about them.

    Conventions of the embedding.
    - A Go [string] is a [string] of bytes; [==] on strings is [String.eqb].
    - Go's [int] is the 64-bit signed integer: a [Z] with the wrap-around of
      [+=] written out ([GoInt.add]).
    - A [*Report] is threaded through every call: a function that receives
      [report *Report] takes a [Report] and returns the updated one.
    - The [io.Writer] of a [Report] is the sequence of byte strings handed
      to its [Write] method, oldest first.
    - A [*html.Node] is a node of a finite tree.  Its [FirstChild] /
      [NextSibling] chain is the list [Children]; its [Parent] chain is
      passed beside it as the list of its ancestors, nearest first.
    - A run-time panic (index out of range) is an explicit outcome. *)

From Stdlib Require Import ZArith Lia Bool List String Ascii.
Import ListNotations.

Set Warnings "-register-all".

Open Scope string_scope.
Open Scope list_scope.

(* ================================================================== *)
(** ** Go run-time pieces used by the package *)
(* ================================================================== *)

Module GoInt.

(** [int] on the 64-bit platforms Go targets. *)
Definition maxInt : Z := 2 ^ 63 - 1.
Definition minInt : Z := - 2 ^ 63.

(** Two's-complement wrap-around of an exact result. *)
Definition wrap (z : Z) : Z := ((z + 2 ^ 63) mod 2 ^ 64 - 2 ^ 63)%Z.

(** [x + y] on [int]. *)
Definition add (x y : Z) : Z := wrap (x + y).

Definition inRange (z : Z) : Prop := (minInt <= z <= maxInt)%Z.

End GoInt.

(** [len(s)] of a slice, as an [int]. *)
Definition len {A : Type} (s : list A) : Z := Z.of_nat (List.length s).

(** [s[i]] on a slice: [None] stands for the index-out-of-range panic. *)
Definition index {A : Type} (s : list A) (i : Z) : option A :=
  if (i <? 0)%Z then None else nth_error s (Z.to_nat i).

(** [s[:j]] on a slice whose capacity is not above what was appended to it:
    [None] stands for the slice-bounds panic. *)
Definition sliceTo {A : Type} (s : list A) (j : Z) : option (list A) :=
  if ((j <? 0) || (len s <? j))%Z then None else Some (firstn (Z.to_nat j) s).

Module strings.

(** [strings.HasPrefix(s, prefix)]. *)
Fixpoint HasPrefix (s prefix : string) : bool :=
  match prefix, s with
  | EmptyString, _ => true
  | String _ _, EmptyString => false
  | String p prefix', String c s' => Ascii.eqb c p && HasPrefix s' prefix'
  end.

(** [strings.Contains(s, substr)]. *)
Fixpoint Contains (s substr : string) : bool :=
  if HasPrefix s substr then true
  else match s with
       | EmptyString => false
       | String _ s' => Contains s' substr
       end.

Fixpoint hasByte (chars : string) (c : ascii) : bool :=
  match chars with
  | EmptyString => false
  | String d chars' => Ascii.eqb c d || hasByte chars' c
  end.

(** [strings.ContainsAny(s, chars)] for [chars] made of ASCII characters:
    a byte of [s] below 128 is a code point of its own. *)
Fixpoint ContainsAny (s chars : string) : bool :=
  match s with
  | EmptyString => false
  | String c s' => hasByte chars c || ContainsAny s' chars
  end.

(** [strings.Join(elems, sep)]. *)
Fixpoint Join (elems : list string) (sep : string) : string :=
  match elems with
  | [] => EmptyString
  | [e] => e
  | e :: rest => (e ++ sep ++ Join rest sep)%string
  end.

End strings.

Module fmt.

(** The operands the package hands to [Println]: strings, a slice of
    strings (the open-tag stack) and, in the driver, [error] values. *)
Inductive operand : Type :=
| OString (s : string)
| OStrings (ss : list string)
| OError (msg : string).

(** The default format ([%v]) of an operand. *)
Definition format (o : operand) : string :=
  match o with
  | OString s => s
  | OStrings ss => ("[" ++ strings.Join ss " " ++ "]")%string
  | OError msg => msg
  end.

Definition newline : string := String "010"%char EmptyString.

(** [fmt.Sprintln]: the operands in their default formats, a space between
    any two of them, and a final newline.  [fmt.Fprintln] hands exactly
    this to the writer, in one [Write]. *)
Definition Sprintln (objects : list operand) : string :=
  (strings.Join (map format objects) " " ++ newline)%string.

End fmt.

Import fmt.

(* ================================================================== *)
(** ** Report *)
(* ================================================================== *)

Record Report : Type := mkReport {
  Writer : list string;
  ErrorCount : Z
}.

(** [func (r *Report) Println(objects ...interface{})] *)
Definition Println (r : Report) (objects : list operand) : Report :=
  {| Writer := Writer r ++ [Sprintln objects];
     ErrorCount := GoInt.add (ErrorCount r) 1 |}.

(** [Report{Writer: w, ErrorCount: 0}] over a writer that received nothing
    yet: how the driver and the tests start. *)
Definition newReport : Report := {| Writer := []; ErrorCount := 0 |}.

(* ================================================================== *)
(** ** The parsed tree ([golang.org/x/net/html]) *)
(* ================================================================== *)

Inductive NodeType : Type :=
| ErrorNode | TextNode | DocumentNode | ElementNode
| CommentNode | DoctypeNode | RawNode.

Definition NodeType_eqb (a b : NodeType) : bool :=
  match a, b with
  | ErrorNode, ErrorNode | TextNode, TextNode | DocumentNode, DocumentNode
  | ElementNode, ElementNode | CommentNode, CommentNode
  | DoctypeNode, DoctypeNode | RawNode, RawNode => true
  | _, _ => false
  end.

Record Attribute : Type := mkAttribute {
  Namespace : string;
  Key : string;
  Val : string
}.

Inductive Node : Type := mkNode {
  Type_ : NodeType;
  Data : string;
  Attr : list Attribute;
  Children : list Node
}.

(** [node.FirstChild], [nil] being [None]. *)
Definition FirstChild (node : Node) : option Node := hd_error (Children node).

(* ================================================================== *)
(** ** Predicates *)
(* ================================================================== *)

Fixpoint hasAttribute (as_ : list Attribute) (key value : string) : bool :=
  match as_ with
  | [] => false
  | a :: rest =>
      if Key a =? key then
        if value =? "*" then negb (Val a =? "")
        else Val a =? value
      else hasAttribute rest key value
  end.

Definition isElement (node : Node) (tag : string) : bool :=
  NodeType_eqb (Type_ node) ElementNode && (Data node =? tag).

(** [hasParent(node, tag)]: [parents] is the chain [node.Parent],
    [node.Parent.Parent], ... up to the root. *)
Fixpoint hasParent (parents : list Node) (tag : string) : bool :=
  match parents with
  | [] => false
  | p :: up =>
      if NodeType_eqb (Type_ p) ElementNode && (Data p =? tag) then true
      else hasParent up tag
  end.

(** [hasChild(node, tag)] for a non-nil [node].  The recursive call of the
    source is on [c.FirstChild], and [hasChild(nil, tag)] is [false]. *)
Fixpoint hasChild (node : Node) (tag : string) : bool :=
  (fix loop (cs : list Node) : bool :=
     match cs with
     | [] => false
     | c :: rest =>
         if NodeType_eqb (Type_ c) ElementNode && (Data c =? tag) then true
         else if match Children c with
                 | [] => false
                 | g :: _ => hasChild g tag
                 end then true
         else loop rest
     end) (Children node).

(* ================================================================== *)
(** ** The rule battery and the tree walk *)
(* ================================================================== *)

Definition timeFormat : string := "_2 January 2006".

(** The second argument of [strings.ContainsAny] in [LintCurlyQuotes]: the
    apostrophe and the double quote. *)
Definition straightQuotes : string :=
  String "039"%char (String "034"%char EmptyString).

Section Linter.

(** [time.Parse(layout, value)] of Go's standard library, as far as the
    package looks at it: [true] when the returned error is [nil]. *)
Variable time_Parse : string -> string -> bool.

Definition LintLazyLoading (report : Report) (node : Node) (pathname : string)
  : Report :=
  if isElement node "img" || isElement node "iframe" then
    if negb (hasAttribute (Attr node) "loading" "lazy") then
      Println report [OString pathname;
                      OString "<img>/<iframe> missing loading=lazy"]
    else report
  else if isElement node "script" then
    if negb (hasAttribute (Attr node) "type" "module") then
      Println report [OString pathname; OString "<script> missing type=module"]
    else report
  else report.

Definition LintWidthAndHeight (report : Report) (node : Node)
           (pathname : string) : Report :=
  if isElement node "img" then
    let report :=
      if negb (hasAttribute (Attr node) "width" "*") then
        Println report [OString pathname; OString "<img> missing width"]
      else report in
    if negb (hasAttribute (Attr node) "height" "*") then
      Println report [OString pathname; OString "<img> missing height"]
    else report
  else report.

Definition LintAltText (report : Report) (node : Node) (pathname : string)
  : Report :=
  if isElement node "img" && negb (hasAttribute (Attr node) "alt" "*") then
    Println report [OString pathname; OString "<img> missing alt"]
  else report.

Definition LintAName (report : Report) (node : Node) (pathname : string)
  : Report :=
  if isElement node "a" && hasAttribute (Attr node) "name" "*" then
    Println report [OString pathname; OString "<a> has name; should use id"]
  else report.

Definition LintImgNestedInFigure (report : Report) (parents : list Node)
           (node : Node) (pathname : string) : Report :=
  if isElement node "img" && negb (hasParent parents "figure") then
    Println report [OString pathname; OString "<img> not inside <figure>"]
  else report.

Definition LintTimeFormatting (report : Report) (node : Node)
           (pathname : string) : Report :=
  if isElement node "time" then
    match FirstChild node with
    | None =>
        Println report [OString pathname;
                        OString "<time> needs exactly 1 text child"]
    | Some c =>
        if negb (NodeType_eqb (Type_ c) TextNode) then
          Println report [OString pathname;
                          OString "<time> needs exactly 1 text child"]
        else if time_Parse timeFormat (Data c) then report
        else
          Println report [OString pathname; OString "<time> child";
                          OString (Data c);
                          OString "does not have correct format";
                          OString timeFormat]
    end
  else report.

Definition LintFigureHasFigcaption (report : Report) (node : Node)
           (pathname : string) : Report :=
  if isElement node "figure" && negb (hasChild node "figcaption") then
    Println report [OString pathname;
                    OString "<figure> missing <figcaption> child"]
  else report.

(** One turn of the loop over [node.Attr] in [LintCurlyQuotes]. *)
Definition lintQuotedAttribute (pathname : string) (report : Report)
           (a : Attribute) : Report :=
  if (Key a =? "alt") || (Key a =? "title") then
    if strings.ContainsAny (Val a) straightQuotes then
      Println report [OString pathname;
                      OString "<img> alt or title contains non-curly quotes"]
    else report
  else report.

Definition LintCurlyQuotes (report : Report) (parents : list Node)
           (node : Node) (pathname : string) : Report :=
  let report :=
    if NodeType_eqb (Type_ node) TextNode
       && negb (hasParent parents "pre") && negb (hasParent parents "code")
       && negb (hasParent parents "script")
       && negb (hasParent parents "style") then
      if strings.ContainsAny (Data node) straightQuotes then
        Println report [OString pathname;
                        OString "contains non-curly quotes text node";
                        OString (Data node)]
      else report
    else report in
  if isElement node "img" then
    fold_left (lintQuotedAttribute pathname) (Attr node) report
  else report.

(** The eight rules of [Lint], in its order, on one node. *)
Definition lintNode (report : Report) (parents : list Node) (node : Node)
           (pathname : string) : Report :=
  let report := LintLazyLoading report node pathname in
  let report := LintWidthAndHeight report node pathname in
  let report := LintAltText report node pathname in
  let report := LintAName report node pathname in
  let report := LintImgNestedInFigure report parents node pathname in
  let report := LintTimeFormatting report node pathname in
  let report := LintFigureHasFigcaption report node pathname in
  LintCurlyQuotes report parents node pathname.

(** [Lint]: the rules on [node], then the walk down the sibling chain of
    its children, each child having [node] as its [Parent]. *)
Fixpoint Lint (report : Report) (parents : list Node) (node : Node)
         (pathname : string) {struct node} : Report :=
  (fix children (report : Report) (cs : list Node) {struct cs} : Report :=
     match cs with
     | [] => report
     | c :: rest => children (Lint report (node :: parents) c pathname) rest
     end) (lintNode report parents node pathname) (Children node).

End Linter.

(* ================================================================== *)
(** ** The nesting scan *)
(* ================================================================== *)

Inductive TokenType : Type :=
| ErrorToken | TextToken | StartTagToken | EndTagToken
| SelfClosingTagToken | CommentToken | DoctypeToken.

(** What one turn of the loop of [LintNesting] reads from the tokenizer:
    [z.Next()] and [z.TagName()]. *)
Record Token : Type := mkToken {
  TType : TokenType;
  TagName : string
}.

(** How a call ends: it returns, or a run-time panic unwinds it.  Either
    way the report holds what was recorded up to that point. *)
Inductive Outcome : Type :=
| Returned (report : Report)
| Panicked (report : Report).

Definition reportOf (o : Outcome) : Report :=
  match o with Returned r | Panicked r => r end.

(** The statements after the loop of [LintNesting]. *)
Definition nestingEnd (report : Report) (stack : list string)
           (pathname : string) : Outcome :=
  if negb (len stack =? 0)%Z then
    Returned (Println report [OString pathname; OString "Unclosed tags";
                              OStrings stack])
  else Returned report.

(** The loop of [LintNesting].  [tokens] is what the tokenizer yields from
    here on; after the last of them [z.Next()] is [ErrorToken] (end of
    input), and an [ErrorToken] earlier in the list is a read error. *)
Fixpoint nestingLoop (report : Report) (stack : list string)
         (tokens : list Token) (pathname : string) : Outcome :=
  match tokens with
  | [] => nestingEnd report stack pathname
  | token :: rest =>
      let tag := TagName token in
      match TType token with
      | ErrorToken => nestingEnd report stack pathname
      | StartTagToken => nestingLoop report (stack ++ [tag]) rest pathname
      | EndTagToken =>
          let report :=
            if (len stack =? 0)%Z then
              Println report [OString pathname; OString "tag stack underflow"]
            else report in
          (* [len(stack)] is at least 0: the subtraction cannot wrap. *)
          let last := (len stack - 1)%Z in
          match index stack last with
          | None => Panicked report
          | Some previous =>
              let report :=
                if negb (tag =? previous) then
                  Println report [OString pathname; OString "Unmatched pair";
                                  OString tag; OString previous]
                else report in
              match sliceTo stack last with
              | None => Panicked report
              | Some stack => nestingLoop report stack rest pathname
              end
          end
      | _ => nestingLoop report stack rest pathname
      end
  end.

Definition LintNesting (report : Report) (reader : list Token)
           (pathname : string) : Outcome :=
  nestingLoop report [] reader pathname.

(* ================================================================== *)
(** ** The driver ([cmd/html-lint]) *)
(* ================================================================== *)

(** What the driver meets at one path name. *)
Inductive File : Type :=
| OpenFails (e : string)
| ParseFails (e : string)
| SeekFails (document : Node) (e : string)
| Readable (document : Node) (tokens : list Token).

(** Standard input, read when no path is given. *)
Inductive Stdin : Type :=
| StdinParseFails (e : string)
| StdinParsed (document : Node).

Section Driver.

Variable time_Parse : string -> string -> bool.

(** The loop of [main] over [flag.Args()]. *)
Fixpoint lintFiles (report : Report) (args : list (string * File))
  : Outcome :=
  match args with
  | [] => Returned report
  | (pathname, f) :: rest =>
      match f with
      | OpenFails e => lintFiles (Println report [OError e]) rest
      | ParseFails e => lintFiles (Println report [OError e]) rest
      | SeekFails document e =>
          let report := Lint time_Parse report [] document pathname in
          lintFiles (Println report [OError e]) rest
      | Readable document tokens =>
          let report := Lint time_Parse report [] document pathname in
          match LintNesting report tokens pathname with
          | Returned report => lintFiles report rest
          | Panicked report => Panicked report
          end
      end
  end.

(** [main]: the report it ends with; [os.Exit] is handed its
    [ErrorCount]. *)
Definition main (args : list (string * File)) (stdin : Stdin) : Outcome :=
  match lintFiles newReport args with
  | Panicked report => Panicked report
  | Returned report =>
      if (len args =? 0)%Z then
        match stdin with
        | StdinParseFails e => Returned (Println report [OError e])
        | StdinParsed document =>
            Returned (Lint time_Parse report [] document "<stdin>")
        end
      else Returned report
  end.

End Driver.

(* ================================================================== *)
(** ** [time.Parse] on the layout of the package *)
(* ================================================================== *)

(** The rules are stated over any [time_Parse].  For closed examples this
    module transcribes what [time.Parse] of Go's standard library
    ([time/format.go]) does on the one layout the package uses,
    ["_2 January 2006"]: the elements [_2], [January] and [2006], each
    separated from the next by a space of the layout. *)
Module time.

Definition isDigit (c : ascii) : bool :=
  (48 <=? nat_of_ascii c)%nat && (nat_of_ascii c <=? 57)%nat.

Definition digit (c : ascii) : nat := nat_of_ascii c - 48.

(** [getnum(s, false)]: one digit, or two when a second one follows. *)
Definition getnum (s : string) : option (nat * string) :=
  match s with
  | EmptyString => None
  | String c1 rest =>
      if isDigit c1 then
        match rest with
        | String c2 rest2 =>
            if isDigit c2 then Some (digit c1 * 10 + digit c2, rest2)
            else Some (digit c1, rest)
        | EmptyString => Some (digit c1, rest)
        end
      else None
  end.

Fixpoint cutspace (s : string) : string :=
  match s with
  | String c s' => if Ascii.eqb c " " then cutspace s' else s
  | EmptyString => s
  end.

(** [skip(value, " ")]: a space of the layout stands for any run of
    spaces of the value, and refuses any other first character. *)
Definition skipSpace (value : string) : option string :=
  match value with
  | EmptyString => Some value
  | String c _ => if Ascii.eqb c " " then Some (cutspace value) else None
  end.

(** One step of [match]: equal bytes, or equal letters once both have
    the lower-case bit set. *)
Definition matchByte (c1 c2 : ascii) : bool :=
  Ascii.eqb c1 c2
  || (let l1 := Nat.lor (nat_of_ascii c1) 32 in
      let l2 := Nat.lor (nat_of_ascii c2) 32 in
      (l1 =? l2)%nat && (97 <=? l1)%nat && (l1 <=? 122)%nat).

(** [len(val) >= len(v) && match(val[0:len(v)], v)], with [val[len(v):]]. *)
Fixpoint matchName (val v : string) : option string :=
  match v, val with
  | EmptyString, _ => Some val
  | String _ _, EmptyString => None
  | String b v', String a val' =>
      if matchByte a b then matchName val' v' else None
  end.

Definition longMonthNames : list string :=
  ["January"; "February"; "March"; "April"; "May"; "June"; "July";
   "August"; "September"; "October"; "November"; "December"].

(** [lookup(tab, val)], the index counted from [i]. *)
Fixpoint lookup (tab : list string) (i : nat) (val : string)
  : option (nat * string) :=
  match tab with
  | [] => None
  | v :: tab' =>
      match matchName val v with
      | Some rest => Some (i, rest)
      | None => lookup tab' (S i) val
      end
  end.

(** The element [2006]: four characters, all of them digits. *)
Definition longYear (value : string) : option (nat * string) :=
  match value with
  | String a (String b (String c (String d rest))) =>
      if isDigit a && isDigit b && isDigit c && isDigit d then
        Some (digit a * 1000 + digit b * 100 + digit c * 10 + digit d, rest)
      else None
  | _ => None
  end.

Definition isLeap (year : nat) : bool :=
  (year mod 4 =? 0)%nat
  && (negb (year mod 100 =? 0)%nat || (year mod 400 =? 0)%nat).

(** [daysIn(m, year)], [m] counted from 1. *)
Definition daysIn (m year : nat) : nat :=
  match m with
  | 2 => if isLeap year then 29 else 28
  | 4 | 6 | 9 | 11 => 30
  | _ => 31
  end.

(** The three elements in turn, then no text left over and a day that
    the month has. *)
Definition parseDayMonthYear (value : string) : bool :=
  let value :=
    match value with
    | String c v' => if Ascii.eqb c " " then v' else value
    | EmptyString => value
    end in
  match getnum value with
  | None => false
  | Some (day, value) =>
  match skipSpace value with
  | None => false
  | Some value =>
  match lookup longMonthNames 0 value with
  | None => false
  | Some (month, value) =>
  match skipSpace value with
  | None => false
  | Some value =>
  match longYear value with
  | None => false
  | Some (year, value) =>
  match value with
  | EmptyString => (1 <=? day)%nat && (day <=? daysIn (S month) year)%nat
  | String _ _ => false
  end end end end end end.

(** [time.Parse(layout, value)] returns a nil error.  Only the layout of
    the package is transcribed; any other one is answered [false]. *)
Definition Parse (layout value : string) : bool :=
  (layout =? "_2 January 2006") && parseDayMonthYear value.

End time.

(* ================================================================== *)
(** ** The test helper of the package ([runTest]) *)
(* ================================================================== *)

(** [builder.String()]: all that was written, in order. *)
Definition written (r : Report) : string := String.concat "" (Writer r).

(** [runTest] past [html.Parse]: [document] is the parsed text.  [true]
    when no [t.Errorf] is reached. *)
Definition runTest (time_Parse : string -> string -> bool) (document : Node)
           (expected : list string) (expectedErrorCount : Z) : bool :=
  let report := Lint time_Parse newReport [] document "" in
  let received := written report in
  forallb (fun e => strings.Contains received e) expected
  && (ErrorCount report =? expectedErrorCount)%Z.

(* ================================================================== *)
(** ** Documents used as examples *)
(* ================================================================== *)

Definition element (tag : string) (attrs : list Attribute)
           (children : list Node) : Node :=
  mkNode ElementNode tag attrs children.

Definition text (data : string) : Node := mkNode TextNode data [] [].

Definition attr (key val : string) : Attribute := mkAttribute "" key val.

(** What [html.Parse] builds around the content of a body: the document
    node, [html], an empty [head] and the [body]. *)
Definition document (body : list Node) : Node :=
  mkNode DocumentNode "" []
    [element "html" [] [element "head" [] []; element "body" [] body]].

(** [<a name="x"></a>] *)
Definition anchorDocument : Node :=
  document [element "a" [attr "name" "x"] []].

(** [<figure><div><figcaption>x</figcaption></div></figure>] *)
Definition nestedCaptionFigure : Node :=
  element "figure" []
    [element "div" [] [element "figcaption" [] [text "x"]]].

Definition nestedCaptionDocument : Node := document [nestedCaptionFigure].

(** An [img] node whose [Attr] slice holds the key [loading] twice, as in
    [<img loading="eager" loading="lazy">]: a [[]html.Attribute] puts no
    bound on how often a key occurs. *)
Definition twiceLoadingImg : Node :=
  element "img" [attr "loading" "eager"; attr "loading" "lazy"] [].

(** [<time>2 January 2006<b>x</b></time>] *)
Definition timeWithSecondChild : Node :=
  element "time" [] [text "2 January 2006"; element "b" [] [text "x"]].

(** [<time>2 January 2006</time>] *)
Definition timeAlone : Node := element "time" [] [text "2 January 2006"].

(** The documents of the tests of the package, as [html.Parse] builds
    them; [nl] is the text node of a line break between two elements. *)
Definition nl : Node := text newline.

Definition goatCaption : Node := element "figcaption" [] [text "goat"].

Definition lazyLoadingDocument : Node :=
  document
    [element "figure" []
       [element "img" [attr "src" "goat"; attr "alt" "goat";
                       attr "width" "0"; attr "height" "0"] [];
        nl; goatCaption];
     nl;
     element "iframe" [attr "width" "0"; attr "height" "0"] [];
     nl].

Definition widthAndHeightDocument : Node :=
  document
    [element "figure" []
       [element "img" [attr "src" "goat"; attr "alt" "goat";
                       attr "height" "0"; attr "loading" "lazy"] [];
        nl; goatCaption];
     nl;
     element "figure" []
       [element "img" [attr "src" "goat"; attr "alt" "goat";
                       attr "width" "0"; attr "loading" "lazy"] [];
        nl; goatCaption];
     nl].

Definition altTextDocument : Node :=
  document
    [element "figure" []
       [element "img" [attr "src" "goat"; attr "width" "0";
                       attr "height" "0"; attr "loading" "lazy"] [];
        nl; goatCaption];
     nl].

Definition florbDocument : Node :=
  document [element "a" [attr "name" "florb"] []].

Definition bareImgDocument : Node :=
  document
    [element "img" [attr "src" "goat"; attr "width" "0"; attr "height" "0";
                    attr "alt" "goat"; attr "loading" "lazy"] []].

Definition timeDocument : Node :=
  document
    [element "time" [] []; nl;
     element "time" [] [text "June 99th, 12 BCE"]; nl].

Definition helloFigureDocument : Node :=
  document [element "figure" [] [text "hello"]].

(** [Hello, "World"], the quotes being the straight double quote. *)
Definition helloWorldQuoted : string :=
  ("Hello, " ++ String "034"%char ("World" ++ String "034"%char EmptyString))
  %string.

Definition curlyQuotesDocument : Node :=
  document
    [element "p" [] [text helloWorldQuoted];
     nl;
     element "figure" []
       [element "img" [attr "src" "goat"; attr "width" "0";
                       attr "height" "0"; attr "alt" "Hello, 'World'";
                       attr "loading" "lazy"] [];
        nl; element "figcaption" [] [text "hi"]];
     nl;
     element "figure" []
       [element "img" [attr "src" "goat"; attr "width" "0";
                       attr "height" "0"; attr "alt" "Hello, ‘World’";
                       attr "title" "'wow'"; attr "loading" "lazy"] [];
        nl; element "figcaption" [] [text "hi"]];
     nl].

(* ================================================================== *)
(** ** The rule table as the specification words it *)
(* ================================================================== *)

(** These follow the wording of the specification (its predicate contracts
    and its rule table), not the code; the theorems compare the two. *)
Module Spec.

(** "an attribute with the given key exists", its value non-empty for the
    wildcard marker and equal to [value] otherwise. *)
Definition has_attribute (attrs : list Attribute) (key value : string)
  : bool :=
  existsb (fun a => (Key a =? key)
                    && (if value =? "*" then negb (Val a =? "")
                        else Val a =? value)) attrs.

(** "keys unique per node". *)
Definition unique_keys (node : Node) : Prop := NoDup (map Key (Attr node)).

(** "any strict ancestor is an element with the given tag". *)
Definition has_ancestor (parents : list Node) (tag : string) : bool :=
  existsb (fun p => isElement p tag) parents.

(** "any descendant (recursive, pre-order) is an element with the given
    tag". *)
Fixpoint has_descendant (node : Node) (tag : string) : bool :=
  (fix among (cs : list Node) : bool :=
     match cs with
     | [] => false
     | c :: rest => isElement c tag || has_descendant c tag || among rest
     end) (Children node).

(** "exactly one child that is a text node", with its text. *)
Definition sole_text_child (node : Node) : option string :=
  match Children node with
  | [c] => if NodeType_eqb (Type_ c) TextNode then Some (Data c) else None
  | _ => None
  end.

Section Table.

Variable time_Parse : string -> string -> bool.

(** The "condition flagged" column, one disjunct per row. *)
Definition violates (parents : list Node) (node : Node) : bool :=
  ((isElement node "img" || isElement node "iframe")
     && negb (has_attribute (Attr node) "loading" "lazy"))
  || (isElement node "script"
        && negb (has_attribute (Attr node) "type" "module"))
  || (isElement node "img"
        && (negb (has_attribute (Attr node) "width" "*")
            || negb (has_attribute (Attr node) "height" "*")))
  || (isElement node "img" && negb (has_attribute (Attr node) "alt" "*"))
  || (isElement node "a" && has_attribute (Attr node) "name" "*")
  || (isElement node "img" && negb (has_ancestor parents "figure"))
  || (isElement node "time"
        && match sole_text_child node with
           | Some s => negb (time_Parse timeFormat s)
           | None => true
           end)
  || (isElement node "figure" && negb (has_descendant node "figcaption"))
  || (NodeType_eqb (Type_ node) TextNode
        && negb (has_ancestor parents "pre"
                 || has_ancestor parents "code"
                 || has_ancestor parents "script"
                 || has_ancestor parents "style")
        && strings.ContainsAny (Data node) straightQuotes)
  || (isElement node "img"
        && existsb (fun a => ((Key a =? "alt") || (Key a =? "title"))
                             && strings.ContainsAny (Val a) straightQuotes)
             (Attr node)).

(** "zero rule-violating nodes": no node of the tree under [node],
    itself included, meets a flagged condition. *)
Fixpoint violation_free (parents : list Node) (node : Node) : bool :=
  negb (violates parents node)
  && (fix all (cs : list Node) : bool :=
        match cs with
        | [] => true
        | c :: rest => violation_free (node :: parents) c && all rest
        end) (Children node).

End Table.

(** "perfectly balanced start/end tags": every start tag is closed by an
    end tag of its name, pairs nest, and anything else lies between. *)
Inductive balanced : list Token -> Prop :=
| balanced_nil : balanced []
| balanced_other (t : Token) (ts : list Token) :
    TType t <> StartTagToken -> TType t <> EndTagToken ->
    TType t <> ErrorToken ->
    balanced ts -> balanced (t :: ts)
| balanced_pair (tag : string) (inner rest : list Token) :
    balanced inner -> balanced rest ->
    balanced (mkToken StartTagToken tag :: inner
              ++ mkToken EndTagToken tag :: rest).

(** "a stream ending with N still-open tags": the tags [names] are opened
    in this order and never closed, all else being balanced. *)
Inductive leaves_open : list string -> list Token -> Prop :=
| leaves_none (ts : list Token) : balanced ts -> leaves_open [] ts
| leaves_more (tag : string) (names : list string)
              (before after : list Token) :
    balanced before -> leaves_open names after ->
    leaves_open (tag :: names)
                (before ++ mkToken StartTagToken tag :: after).

End Spec.

(* ================================================================== *)
(** ** Reports as logs *)
(* ================================================================== *)

(** What [Println] does to the report, given the line it formats. *)
Definition record (r : Report) (line : string) : Report :=
  {| Writer := Writer r ++ [line];
     ErrorCount := GoInt.add (ErrorCount r) 1 |}.

Definition recordAll (r : Report) (lines : list string) : Report :=
  fold_left record lines r.

(** [f] does nothing to a report but record lines that do not depend on
    the report it is given. *)
Definition appends (f : Report -> Report) : Prop :=
  exists ds, forall r, f r = recordAll r ds.

(** The same for a call that may panic. *)
Definition appendsOrPanics (f : Report -> Outcome) : Prop :=
  exists ds, (forall r, f r = Returned (recordAll r ds))
             \/ (forall r, f r = Panicked (recordAll r ds)).

(** [r'] is [r] after the diagnostics [ds]: they follow what [r] held, and
    the count went up by their number unless that leaves [int]. *)
Definition recorded (r r' : Report) (ds : list string) : Prop :=
  Writer r' = Writer r ++ ds
  /\ ((ErrorCount r + len ds <= GoInt.maxInt)%Z ->
      ErrorCount r' = (ErrorCount r + len ds)%Z).

(** An element node as the claims speak of it. *)
Definition lacks_attribute (node : Node) (key val : string) : Prop :=
  forall a, In a (Attr node) -> Key a = key -> Val a <> val.

Definition lacks_nonempty (node : Node) (key : string) : Prop :=
  forall a, In a (Attr node) -> Key a = key -> Val a = "".

(** The test [hasAttribute] applies to the attribute it stops at. *)
Definition valueTest (a : Attribute) (value : string) : bool :=
  if value =? "*" then negb (Val a =? "") else Val a =? value.

(** The nodes of the tree under [node], itself first, in the order the
    walk visits them. *)
Fixpoint subnodes (node : Node) : list Node :=
  node :: (fix among (cs : list Node) : list Node :=
             match cs with
             | [] => []
             | c :: rest => subnodes c ++ among rest
             end) (Children node).

(** The visits of the walk from [node], in order: each node of the tree
    with its chain of ancestors, nearest first, above [parents]. *)
Fixpoint visits (parents : list Node) (node : Node)
  : list (list Node * Node) :=
  (parents, node)
  :: (fix among (cs : list Node) : list (list Node * Node) :=
        match cs with
        | [] => []
        | c :: rest => visits (node :: parents) c ++ among rest
        end) (Children node).

(** A [figure] with a [figcaption] among its own children. *)
Definition captioned (node : Node) : Prop :=
  isElement node "figure" = true ->
  exists c, In c (Children node) /\ isElement c "figcaption" = true.

(** Whether a call ended in a panic. *)
Definition isPanicked (o : Outcome) : bool :=
  match o with
  | Panicked _ => true
  | Returned _ => false
  end.

(** Reading [tokens] with [depth] tags open: whether an end tag comes
    with none open, before an [ErrorToken] or the end of the input. *)
Fixpoint underflows (depth : nat) (tokens : list Token) : bool :=
  match tokens with
  | [] => false
  | token :: rest =>
      match TType token with
      | ErrorToken => false
      | StartTagToken => underflows (S depth) rest
      | EndTagToken =>
          match depth with
          | O => true
          | S d => underflows d rest
          end
      | _ => underflows depth rest
      end
  end.

(** The tokens the loop of [LintNesting] has a branch for. *)
Definition scanned (token : Token) : bool :=
  match TType token with
  | StartTagToken | EndTagToken | ErrorToken => true
  | _ => false
  end.

(** A file of the command line whose tokens underflow the stack. *)
Definition fileUnderflows (arg : string * File) : bool :=
  match snd arg with
  | Readable _ tokens => underflows 0 tokens
  | _ => false
  end.

(** A line made of the path name, a space, a message and a line break. *)
Definition attributed (pathname line : string) : Prop :=
  exists message, line = (pathname ++ " " ++ message ++ newline)%string.

(** An [alt] or [title] attribute whose value holds a straight quote. *)
Definition quotedAttribute (a : Attribute) : bool :=
  ((Key a =? "alt") || (Key a =? "title"))
  && strings.ContainsAny (Val a) straightQuotes.

(** An ancestor that is an element of one of the tags. *)
Definition under (parents : list Node) (tags : list string) : Prop :=
  exists q tag, In q parents /\ In tag tags /\ isElement q tag = true.

(** Splits on every test of a rule body, then names the lines recorded. *)
Ltac split_tests :=
  repeat match goal with
         | |- context [if ?b then _ else _] => destruct b
         | |- context [match ?o with Some _ => _ | None => _ end] => destruct o
         end.

Ltac name_lines :=
  first [ exists []; intros; reflexivity
        | eexists [_]; intros; reflexivity
        | eexists [_; _]; intros; reflexivity ].

(* ================================================================== *)
(** ** Lemmas on the run-time pieces *)
(* ================================================================== *)

Lemma wrap_inRange (z : Z) : GoInt.inRange z -> GoInt.wrap z = z.
Proof.
  unfold GoInt.inRange, GoInt.wrap, GoInt.minInt, GoInt.maxInt. intros H.
  rewrite Z.mod_small; lia.
Qed.

Lemma len_app {A : Type} (xs ys : list A) : len (xs ++ ys) = (len xs + len ys)%Z.
Proof. unfold len. rewrite length_app. lia. Qed.

Lemma len_nonneg {A : Type} (xs : list A) : (0 <= len xs)%Z.
Proof. unfold len. lia. Qed.

Lemma len_zero {A : Type} (xs : list A) : (len xs =? 0)%Z = true <-> xs = [].
Proof.
  unfold len. destruct xs; simpl; split; intros H; try reflexivity;
    try discriminate; lia.
Qed.

Lemma len_snoc_pred {A : Type} (xs : list A) (x : A) :
  (len (xs ++ [x]) - 1)%Z = len xs.
Proof. rewrite len_app. unfold len. simpl. lia. Qed.

Lemma index_last {A : Type} (xs : list A) (x : A) :
  index (xs ++ [x]) (len (xs ++ [x]) - 1) = Some x.
Proof.
  rewrite len_snoc_pred. unfold index.
  pose proof (len_nonneg xs) as H.
  destruct (Z.ltb_spec (len xs) 0) as [Hlt | _]; [lia |].
  unfold len. rewrite Nat2Z.id.
  rewrite nth_error_app2 by lia. rewrite Nat.sub_diag. reflexivity.
Qed.

Lemma sliceTo_last {A : Type} (xs : list A) (x : A) :
  sliceTo (xs ++ [x]) (len (xs ++ [x]) - 1) = Some xs.
Proof.
  rewrite len_snoc_pred. unfold sliceTo.
  pose proof (len_nonneg xs) as H.
  destruct (Z.ltb_spec (len xs) 0) as [Hlt | _]; [lia |].
  destruct (Z.ltb_spec (len (xs ++ [x])) (len xs)) as [Hlt | _].
  - rewrite len_app in Hlt. unfold len in Hlt. simpl in Hlt. lia.
  - simpl. f_equal. unfold len. rewrite Nat2Z.id.
    rewrite firstn_app, Nat.sub_diag, firstn_all. simpl. apply app_nil_r.
Qed.

Lemma index_empty {A : Type} : index (@nil A) (len (@nil A) - 1) = None.
Proof. reflexivity. Qed.

(* ================================================================== *)
(** ** Lemmas on reports *)
(* ================================================================== *)

Lemma Println_record (r : Report) (objects : list operand) :
  Println r objects = record r (Sprintln objects).
Proof. reflexivity. Qed.

Lemma recordAll_app (r : Report) (xs ys : list string) :
  recordAll r (xs ++ ys) = recordAll (recordAll r xs) ys.
Proof. unfold recordAll. apply fold_left_app. Qed.

Lemma Writer_recordAll (ds : list string) :
  forall r, Writer (recordAll r ds) = Writer r ++ ds.
Proof.
  induction ds as [| d ds IH]; intros r.
  - simpl. symmetry. apply app_nil_r.
  - change (recordAll r (d :: ds)) with (recordAll (record r d) ds).
    rewrite IH. simpl. rewrite <- app_assoc. reflexivity.
Qed.

Lemma ErrorCount_recordAll (ds : list string) :
  forall r, GoInt.inRange (ErrorCount r) ->
            (ErrorCount r + len ds <= GoInt.maxInt)%Z ->
            ErrorCount (recordAll r ds) = (ErrorCount r + len ds)%Z.
Proof.
  induction ds as [| d ds IH]; intros r Hr Hle.
  - unfold len. simpl. lia.
  - change (recordAll r (d :: ds)) with (recordAll (record r d) ds).
    assert (Hlen : len (d :: ds) = (1 + len ds)%Z)
      by (unfold len; simpl List.length; lia).
    rewrite Hlen in *. pose proof (len_nonneg ds) as Hds.
    assert (Hone : ErrorCount (record r d) = (ErrorCount r + 1)%Z).
    { simpl. unfold GoInt.add. apply wrap_inRange.
      unfold GoInt.inRange in *. lia. }
    rewrite IH; rewrite Hone; unfold GoInt.inRange in *; lia.
Qed.

Lemma recorded_recordAll (r : Report) (ds : list string) :
  GoInt.inRange (ErrorCount r) -> recorded r (recordAll r ds) ds.
Proof.
  intros Hr. split.
  - apply Writer_recordAll.
  - intros Hle. apply ErrorCount_recordAll; assumption.
Qed.

Lemma appends_id : appends (fun r => r).
Proof. exists []. reflexivity. Qed.

Lemma appends_Println (objects : list operand) :
  appends (fun r => Println r objects).
Proof. exists [Sprintln objects]. reflexivity. Qed.

Lemma appends_compose (f g : Report -> Report) :
  appends f -> appends g -> appends (fun r => g (f r)).
Proof.
  intros [df Hf] [dg Hg]. exists (df ++ dg). intros r.
  rewrite Hg, Hf. symmetry. apply recordAll_app.
Qed.

Lemma appends_if (b : bool) (f g : Report -> Report) :
  appends f -> appends g -> appends (fun r => if b then f r else g r).
Proof. destruct b; auto. Qed.

Lemma appends_fold {A : Type} (step : Report -> A -> Report) (xs : list A) :
  (forall x, In x xs -> appends (fun r => step r x)) ->
  appends (fun r => fold_left step xs r).
Proof.
  induction xs as [| x xs IH]; intros H; simpl.
  - apply appends_id.
  - apply (appends_compose (fun r => step r x) (fun r => fold_left step xs r)).
    + apply H. left. reflexivity.
    + apply IH. intros y Hy. apply H. right. exact Hy.
Qed.

Create HintDb appends.
#[local] Hint Resolve appends_id appends_Println appends_if : appends.

Lemma appends_emitted (f : Report -> Report) :
  appends f -> forall r, f r = recordAll r (Writer (f newReport)).
Proof.
  intros [ds H] r. rewrite (H newReport), Writer_recordAll. simpl. apply H.
Qed.

(* ================================================================== *)
(** ** Lemmas on the tree *)
(* ================================================================== *)

(** Induction on a node with the property known of all its children. *)
Lemma Node_children_ind (P : Node -> Prop) :
  (forall t d a cs, Forall P cs -> P (mkNode t d a cs)) -> forall n, P n.
Proof.
  intros step. fix IH 1. intros [t d a cs]. apply step.
  induction cs as [| c cs IHcs]; constructor.
  - apply IH.
  - exact IHcs.
Qed.

Section RuleLemmas.

Variable time_Parse : string -> string -> bool.

Lemma appends_LintLazyLoading node p :
  appends (fun r => LintLazyLoading r node p).
Proof. unfold LintLazyLoading. split_tests; name_lines. Qed.

Lemma appends_LintWidthAndHeight node p :
  appends (fun r => LintWidthAndHeight r node p).
Proof. unfold LintWidthAndHeight. split_tests; name_lines. Qed.

Lemma appends_LintAltText node p : appends (fun r => LintAltText r node p).
Proof. unfold LintAltText. split_tests; name_lines. Qed.

Lemma appends_LintAName node p : appends (fun r => LintAName r node p).
Proof. unfold LintAName. split_tests; name_lines. Qed.

Lemma appends_LintImgNestedInFigure ps node p :
  appends (fun r => LintImgNestedInFigure r ps node p).
Proof. unfold LintImgNestedInFigure. split_tests; name_lines. Qed.

Lemma appends_LintTimeFormatting node p :
  appends (fun r => LintTimeFormatting time_Parse r node p).
Proof. unfold LintTimeFormatting. split_tests; name_lines. Qed.

Lemma appends_LintFigureHasFigcaption node p :
  appends (fun r => LintFigureHasFigcaption r node p).
Proof. unfold LintFigureHasFigcaption. split_tests; name_lines. Qed.

Lemma appends_lintQuotedAttribute p a :
  appends (fun r => lintQuotedAttribute p r a).
Proof. unfold lintQuotedAttribute. split_tests; name_lines. Qed.

Lemma appends_LintCurlyQuotes ps node p :
  appends (fun r => LintCurlyQuotes r ps node p).
Proof.
  unfold LintCurlyQuotes. cbv zeta.
  refine (appends_compose _
            (fun r => if isElement node "img"
                      then fold_left (lintQuotedAttribute p) (Attr node) r
                      else r) _ _).
  - split_tests; name_lines.
  - apply appends_if; [| apply appends_id].
    apply appends_fold. intros a _. apply appends_lintQuotedAttribute.
Qed.

Lemma appends_lintNode ps node p :
  appends (fun r => lintNode time_Parse r ps node p).
Proof.
  unfold lintNode. cbv zeta.
  refine (appends_compose _ (fun r => LintCurlyQuotes r ps node p) _
            (appends_LintCurlyQuotes ps node p)).
  refine (appends_compose _ (fun r => LintFigureHasFigcaption r node p) _
            (appends_LintFigureHasFigcaption node p)).
  refine (appends_compose _ (fun r => LintTimeFormatting time_Parse r node p)
            _ (appends_LintTimeFormatting node p)).
  refine (appends_compose _ (fun r => LintImgNestedInFigure r ps node p) _
            (appends_LintImgNestedInFigure ps node p)).
  refine (appends_compose _ (fun r => LintAName r node p) _
            (appends_LintAName node p)).
  refine (appends_compose _ (fun r => LintAltText r node p) _
            (appends_LintAltText node p)).
  refine (appends_compose _ (fun r => LintWidthAndHeight r node p) _
            (appends_LintWidthAndHeight node p)).
  apply appends_LintLazyLoading.
Qed.

(** [Lint] is the rules on the node, then [Lint] on each child in turn. *)
Lemma Lint_unfold r ps node p :
  Lint time_Parse r ps node p
  = fold_left (fun r c => Lint time_Parse r (node :: ps) c p)
      (Children node) (lintNode time_Parse r ps node p).
Proof.
  destruct node as [t d a cs]. simpl.
  generalize (lintNode time_Parse r ps (mkNode t d a cs) p).
  generalize (mkNode t d a cs :: ps).
  induction cs as [| c cs IH]; intros up r0; simpl.
  - reflexivity.
  - apply IH.
Qed.

Lemma appends_Lint node p :
  forall ps, appends (fun r => Lint time_Parse r ps node p).
Proof.
  induction node as [t d a cs IH] using Node_children_ind. intros ps.
  assert (H : appends
                (fun r => fold_left
                   (fun r c => Lint time_Parse r (mkNode t d a cs :: ps) c p)
                   cs (lintNode time_Parse r ps (mkNode t d a cs) p))).
  { refine (appends_compose _
              (fun r => fold_left
                 (fun r c => Lint time_Parse r (mkNode t d a cs :: ps) c p)
                 cs r) (appends_lintNode ps _ p) _).
    apply appends_fold. intros c Hc.
    rewrite Forall_forall in IH. apply IH. exact Hc. }
  destruct H as [ds H]. exists ds. intros r. rewrite Lint_unfold. apply H.
Qed.

(** The lines a walk records do not depend on the report it starts
    from: they are the ones it records on a new report. *)
Lemma Lint_recordAll r ps node p :
  Lint time_Parse r ps node p
  = recordAll r (Writer (Lint time_Parse newReport ps node p)).
Proof.
  apply (appends_emitted (fun r => Lint time_Parse r ps node p)).
  apply appends_Lint.
Qed.

End RuleLemmas.

(* ================================================================== *)
(** ** Lemmas on the nesting scan *)
(* ================================================================== *)

Lemma appendsOrPanics_Returned (f : Report -> Report) :
  appends f -> appendsOrPanics (fun r => Returned (f r)).
Proof. intros [ds H]. exists ds. left. intros r. rewrite H. reflexivity. Qed.

Lemma appendsOrPanics_Panicked (f : Report -> Report) :
  appends f -> appendsOrPanics (fun r => Panicked (f r)).
Proof. intros [ds H]. exists ds. right. intros r. rewrite H. reflexivity. Qed.

Lemma appendsOrPanics_after (f : Report -> Report) (g : Report -> Outcome) :
  appends f -> appendsOrPanics g -> appendsOrPanics (fun r => g (f r)).
Proof.
  intros [df Hf] [dg [Hg | Hg]]; exists (df ++ dg); [left | right];
    intros r; rewrite Hg, Hf, recordAll_app; reflexivity.
Qed.

(** A call that returned, followed by one that may panic. *)
Lemma appendsOrPanics_then (f g : Report -> Outcome) :
  appendsOrPanics f -> appendsOrPanics g ->
  appendsOrPanics (fun r => match f r with
                            | Returned r' => g r'
                            | Panicked r' => Panicked r'
                            end).
Proof.
  intros [df [Hf | Hf]] [dg Hg].
  - destruct Hg as [Hg | Hg]; exists (df ++ dg); [left | right];
      intros r; rewrite Hf, Hg, recordAll_app; reflexivity.
  - exists df. right. intros r. rewrite Hf. reflexivity.
Qed.

Lemma appendsOrPanics_reportOf (f : Report -> Outcome) :
  appendsOrPanics f -> appends (fun r => reportOf (f r)).
Proof.
  intros [ds [H | H]]; exists ds; intros r; rewrite H; reflexivity.
Qed.

Lemma appendsOrPanics_nestingEnd stack p :
  appendsOrPanics (fun r => nestingEnd r stack p).
Proof.
  unfold nestingEnd. destruct (negb (len stack =? 0)%Z).
  - apply (appendsOrPanics_Returned (fun r => Println r _)).
    apply appends_Println.
  - apply (appendsOrPanics_Returned (fun r => r)). apply appends_id.
Qed.

Lemma appendsOrPanics_nestingLoop p tokens :
  forall stack, appendsOrPanics (fun r => nestingLoop r stack tokens p).
Proof.
  induction tokens as [| token rest IH]; intros stack; simpl.
  - apply appendsOrPanics_nestingEnd.
  - destruct (TType token); try apply IH; try apply appendsOrPanics_nestingEnd.
    set (under := fun r : Report =>
                    if (len stack =? 0)%Z
                    then Println r [OString p; OString "tag stack underflow"]
                    else r).
    assert (Hunder : appends under)
      by (unfold under; destruct (len stack =? 0)%Z; auto with appends).
    destruct (index stack (len stack - 1)) as [previous |].
    + destruct (sliceTo stack (len stack - 1)) as [stack' |].
      * set (pair := fun r : Report =>
                       if negb (TagName token =? previous)
                       then Println r [OString p; OString "Unmatched pair";
                                       OString (TagName token);
                                       OString previous]
                       else r).
        assert (Hpair : appends pair)
          by (unfold pair; destruct (negb (TagName token =? previous));
              auto with appends).
        apply (appendsOrPanics_after under
                 (fun r => nestingLoop (pair r) stack' rest p) Hunder).
        apply (appendsOrPanics_after pair
                 (fun r => nestingLoop r stack' rest p) Hpair).
        apply IH.
      * apply (appendsOrPanics_after under
                 (fun r => Panicked
                    (if negb (TagName token =? previous)
                     then Println r [OString p; OString "Unmatched pair";
                                     OString (TagName token);
                                     OString previous]
                     else r)) Hunder).
        apply (appendsOrPanics_Panicked
                 (fun r => if negb (TagName token =? previous)
                           then Println r _ else r)).
        destruct (negb (TagName token =? previous)); auto with appends.
    + apply (appendsOrPanics_after under (fun r => Panicked r) Hunder).
      apply (appendsOrPanics_Panicked (fun r => r)). apply appends_id.
Qed.

(** A balanced run of tokens leaves the report and the stack as they were. *)
Lemma nestingLoop_balanced p ts :
  Spec.balanced ts ->
  forall r stack rest,
    nestingLoop r stack (ts ++ rest) p = nestingLoop r stack rest p.
Proof.
  induction 1 as [| t ts Hs He Herr Hb IH | tag inner after Hi IHi Ha IHa];
    intros r stack rest.
  - reflexivity.
  - simpl. destruct (TType t); try contradiction; apply IH.
  - simpl. rewrite <- app_assoc. rewrite IHi. simpl.
    rewrite index_last, sliceTo_last.
    destruct (len_zero (stack ++ [tag])) as [Hz _].
    destruct (len (stack ++ [tag]) =? 0)%Z.
    + specialize (Hz eq_refl). destruct stack; discriminate.
    + rewrite String.eqb_refl. simpl. apply IHa.
Qed.

Lemma nestingLoop_leaves_open p names ts :
  Spec.leaves_open names ts ->
  forall r stack, nestingLoop r stack ts p = nestingEnd r (stack ++ names) p.
Proof.
  induction 1 as [ts Hb | tag names before after Hb Ho IH]; intros r stack.
  - rewrite app_nil_r. rewrite <- (app_nil_r ts).
    rewrite (nestingLoop_balanced p ts Hb). reflexivity.
  - rewrite (nestingLoop_balanced p before Hb). simpl. rewrite IH.
    rewrite <- app_assoc. reflexivity.
Qed.

(** Balanced input: the scan returns and records nothing. *)
Lemma LintNesting_balanced r ts p :
  Spec.balanced ts -> LintNesting r ts p = Returned r.
Proof.
  intros Hb. unfold LintNesting. rewrite <- (app_nil_r ts).
  rewrite (nestingLoop_balanced p ts Hb). reflexivity.
Qed.

(** Input that leaves [names] open, one name at least: the scan returns
    and records the one line that lists them in the order they were
    opened. *)
Lemma LintNesting_unclosed r names ts p :
  Spec.leaves_open names ts -> names <> [] ->
  LintNesting r ts p
  = Returned (Println r [OString p; OString "Unclosed tags"; OStrings names]).
Proof.
  intros Ho Hne. unfold LintNesting.
  rewrite (nestingLoop_leaves_open p names ts Ho). simpl.
  unfold nestingEnd. destruct (len_zero names) as [Hz _].
  destruct (len names =? 0)%Z.
  - elim Hne. apply Hz. reflexivity.
  - reflexivity.
Qed.

(** An end tag met on an empty stack: the line is recorded and the index
    expression panics; nothing after that token is read. *)
Lemma nestingLoop_underflow r tag rest p :
  nestingLoop r [] (mkToken EndTagToken tag :: rest) p
  = Panicked (Println r [OString p; OString "tag stack underflow"]).
Proof. reflexivity. Qed.

(* ================================================================== *)
(** ** Lemmas on the driver *)
(* ================================================================== *)

Section DriverLemmas.

Variable time_Parse : string -> string -> bool.

Lemma appendsOrPanics_lintFiles args :
  appendsOrPanics (fun r => lintFiles time_Parse r args).
Proof.
  induction args as [| [pathname f] rest IH]; simpl.
  - apply (appendsOrPanics_Returned (fun r => r)). apply appends_id.
  - destruct f as [e | e | document e | document tokens].
    + apply (appendsOrPanics_after (fun r => Println r [OError e])
               (fun r => lintFiles time_Parse r rest));
        [apply appends_Println | exact IH].
    + apply (appendsOrPanics_after (fun r => Println r [OError e])
               (fun r => lintFiles time_Parse r rest));
        [apply appends_Println | exact IH].
    + apply (appendsOrPanics_after
               (fun r => Println (Lint time_Parse r [] document pathname)
                                 [OError e])
               (fun r => lintFiles time_Parse r rest)); [| exact IH].
      apply (appends_compose
               (fun r => Lint time_Parse r [] document pathname)
               (fun r => Println r [OError e]));
        [apply appends_Lint | apply appends_Println].
    + apply (appendsOrPanics_after
               (fun r => Lint time_Parse r [] document pathname)
               (fun r => match LintNesting r tokens pathname with
                         | Returned r' => lintFiles time_Parse r' rest
                         | Panicked r' => Panicked r'
                         end)); [apply appends_Lint |].
      apply (appendsOrPanics_then
               (fun r => LintNesting r tokens pathname)
               (fun r => lintFiles time_Parse r rest)); [| exact IH].
      apply appendsOrPanics_nestingLoop.
Qed.

Lemma main_recordAll args stdin :
  exists ds, reportOf (main time_Parse args stdin) = recordAll newReport ds.
Proof.
  unfold main.
  destruct (appendsOrPanics_lintFiles args) as [ds [H | H]];
    rewrite (H newReport).
  - destruct (len args =? 0)%Z.
    + destruct stdin as [e | document].
      * exists (ds ++ [Sprintln [OError e]]). simpl.
        rewrite recordAll_app. reflexivity.
      * destruct (appends_Lint time_Parse document "<stdin>" [])
          as [dl Hl].
        exists (ds ++ dl). simpl. rewrite Hl, recordAll_app. reflexivity.
    + exists ds. reflexivity.
  - exists ds. reflexivity.
Qed.

End DriverLemmas.

(* ================================================================== *)
(** ** [hasAttribute] *)
(* ================================================================== *)

Lemma hasAttribute_cons a rest key value :
  hasAttribute (a :: rest) key value
  = if Key a =? key then valueTest a value else hasAttribute rest key value.
Proof. reflexivity. Qed.

Lemma hasAttribute_skip pre rest key value :
  (forall b, In b pre -> Key b <> key) ->
  hasAttribute (pre ++ rest) key value = hasAttribute rest key value.
Proof.
  induction pre as [| b pre IH]; intros Hpre.
  - reflexivity.
  - simpl app. rewrite hasAttribute_cons.
    destruct (String.eqb_spec (Key b) key) as [Hk | _].
    + elim (Hpre b (or_introl eq_refl) Hk).
    + apply IH. intros c Hc. apply Hpre. right. exact Hc.
Qed.

(** When the code finds the attribute, the list holds one that fits. *)
Lemma hasAttribute_sound attrs key value :
  hasAttribute attrs key value = true ->
  Spec.has_attribute attrs key value = true.
Proof.
  induction attrs as [| a rest IH]; intros H.
  - discriminate.
  - rewrite hasAttribute_cons in H. unfold Spec.has_attribute. simpl.
    destruct (Key a =? key).
    + unfold valueTest in H. rewrite H. reflexivity.
    + simpl. apply IH. exact H.
Qed.

(** On keys that are unique the code and the contract agree. *)
Lemma hasAttribute_unique_keys attrs key value :
  NoDup (map Key attrs) ->
  hasAttribute attrs key value = Spec.has_attribute attrs key value.
Proof.
  induction attrs as [| a rest IH]; intros Hnd.
  - reflexivity.
  - rewrite hasAttribute_cons. unfold Spec.has_attribute. simpl.
    inversion Hnd as [| k ks Hnotin Hrest]; subst.
    destruct (String.eqb_spec (Key a) key) as [Hk | Hk].
    + fold (valueTest a value). simpl.
      destruct (valueTest a value); [reflexivity |]. simpl. symmetry.
      apply not_true_is_false. intros Hex.
      apply existsb_exists in Hex. destruct Hex as [b [Hb Hfit]].
      apply andb_true_iff in Hfit. destruct Hfit as [Hkb _].
      apply String.eqb_eq in Hkb. apply Hnotin.
      rewrite Hk, <- Hkb. apply in_map. exact Hb.
    + simpl. apply IH. exact Hrest.
Qed.

Lemma has_attribute_exact_false node key val :
  (val =? "*") = false ->
  Spec.has_attribute (Attr node) key val = false
  <-> lacks_attribute node key val.
Proof.
  intros Hstar. unfold Spec.has_attribute, lacks_attribute. rewrite Hstar.
  split.
  - intros Hex a Ha Hk Hv.
    assert (Ht : existsb (fun a => (Key a =? key) && (Val a =? val))
                   (Attr node) = true).
    { apply existsb_exists. exists a. split; [exact Ha |].
      rewrite Hk, Hv, !String.eqb_refl. reflexivity. }
    rewrite Ht in Hex. discriminate.
  - intros Hl. apply not_true_is_false. intros Hex.
    apply existsb_exists in Hex. destruct Hex as [a [Ha Hfit]].
    apply andb_true_iff in Hfit. destruct Hfit as [Hk Hv].
    apply String.eqb_eq in Hk, Hv. exact (Hl a Ha Hk Hv).
Qed.

Lemma hasAttribute_wildcard_missing node key :
  lacks_nonempty node key -> hasAttribute (Attr node) key "*" = false.
Proof.
  unfold lacks_nonempty. induction (Attr node) as [| a rest IH]; intros H.
  - reflexivity.
  - rewrite hasAttribute_cons. destruct (String.eqb_spec (Key a) key) as [Hk | _].
    + unfold valueTest. simpl.
      rewrite (H a (or_introl eq_refl) Hk). reflexivity.
    + apply IH. intros b Hb. apply H. right. exact Hb.
Qed.

Lemma Println_changes r objects : Println r objects <> r.
Proof.
  intros H. apply (f_equal (fun x => List.length (Writer x))) in H.
  simpl in H. rewrite length_app in H. simpl in H. lia.
Qed.

(** C10.  The answer of [hasAttribute] is the value test on the first
    attribute whose key is [key], whatever follows it in the list: when
    that attribute fails the test (exact match, or non-empty for the
    wildcard ["*"]) the answer is [false] even with a later attribute of
    the same key in the list, one that passes the test included. *)
Theorem hasAttribute_first_occurrence
        (pre post : list Attribute) (a : Attribute) (key value : string) :
  (forall b, In b pre -> Key b <> key) -> Key a = key ->
  hasAttribute (pre ++ a :: post) key value
  = (if value =? "*" then negb (Val a =? "") else Val a =? value)
  /\ ((if value =? "*" then negb (Val a =? "") else Val a =? value) = false ->
      forall later, Key later = key ->
        hasAttribute (pre ++ a :: post ++ [later]) key value = false).
Proof.
  intros Hpre Hk. split.
  - rewrite (hasAttribute_skip pre (a :: post) key value Hpre).
    rewrite hasAttribute_cons, Hk, String.eqb_refl. reflexivity.
  - intros Hfail later _.
    rewrite (hasAttribute_skip pre (a :: post ++ [later]) key value Hpre).
    rewrite hasAttribute_cons, Hk, String.eqb_refl. exact Hfail.
Qed.

Lemma hasAttribute_first_occurrence_witness :
  hasAttribute ([attr "id" "i"] ++ attr "loading" "eager" :: [])
               "loading" "lazy" = false
  /\ hasAttribute ([attr "id" "i"] ++ attr "loading" "eager"
                   :: [] ++ [attr "loading" "lazy"]) "loading" "lazy" = false.
Proof.
  assert (Hpre : forall b, In b [attr "id" "i"] -> Key b <> "loading").
  { intros b [Hb | []]. subst b. discriminate. }
  destruct (hasAttribute_first_occurrence
              [attr "id" "i"] [] (attr "loading" "eager") "loading" "lazy"
              Hpre eq_refl) as [Hfirst Hlater].
  split.
  - exact Hfirst.
  - exact (Hlater eq_refl (attr "loading" "lazy") eq_refl).
Defined.

(* ================================================================== *)
(** ** The rules on one node *)
(* ================================================================== *)

(** C4, as amended.  On an [img] or [iframe] element whose attribute keys
    are unique (the data model of the specification), [LintLazyLoading]
    records exactly one line when the element has no attribute [loading] of
    value [lazy], and nothing otherwise; an attribute [loading] of any
    other value, the non-empty ones included, leaves the line in place.
    Without the unique keys the claim fails: see the lemma after the
    witness. *)
Theorem LintLazyLoading_img_iframe (r : Report) (node : Node) (p : string) :
  isElement node "img" = true \/ isElement node "iframe" = true ->
  Spec.unique_keys node ->
  (lacks_attribute node "loading" "lazy" <->
   LintLazyLoading r node p
   = Println r [OString p; OString "<img>/<iframe> missing loading=lazy"])
  /\ (~ lacks_attribute node "loading" "lazy" <-> LintLazyLoading r node p = r)
  /\ (forall a, In a (Attr node) -> Key a = "loading" -> Val a <> "lazy" ->
      Writer (LintLazyLoading r node p)
      = Writer r
        ++ [Sprintln [OString p;
                      OString "<img>/<iframe> missing loading=lazy"]]).
Proof.
  intros Hel Hu.
  assert (Htag : isElement node "img" || isElement node "iframe" = true)
    by (destruct Hel as [H | H]; rewrite H; auto using orb_true_r).
  pose proof (has_attribute_exact_false node "loading" "lazy" eq_refl)
    as Hlacks.
  unfold LintLazyLoading. rewrite Htag.
  rewrite (hasAttribute_unique_keys _ "loading" "lazy" Hu).
  destruct (Spec.has_attribute (Attr node) "loading" "lazy") eqn:Hhas; simpl.
  - assert (Hnot : ~ lacks_attribute node "loading" "lazy").
    { intros Hl. apply Hlacks in Hl. discriminate. }
    split; [split | split; [split |]].
    + intros Hl. elim (Hnot Hl).
    + intros Heq. symmetry in Heq. elim (Println_changes _ _ Heq).
    + reflexivity.
    + intros _. exact Hnot.
    + intros a Ha Hk Hv. elim Hnot. intros b Hb Hkb Hvb.
      unfold Spec.unique_keys in Hu.
      assert (Hab : a = b).
      { clear - Hu Ha Hb Hk Hkb. induction (Attr node) as [| c cs IH].
        - destruct Ha.
        - inversion Hu as [| k ks Hnotin Hrest]; subst.
          destruct Ha as [Ha | Ha], Hb as [Hb | Hb].
          + congruence.
          + subst c. elim Hnotin. rewrite Hk, <- Hkb. apply in_map. exact Hb.
          + subst c. elim Hnotin. rewrite Hkb, <- Hk. apply in_map. exact Ha.
          + apply IH; assumption. }
      subst b. exact (Hv Hvb).
  - assert (Hl : lacks_attribute node "loading" "lazy")
      by (apply Hlacks; reflexivity).
    split; [split | split; [split |]].
    + reflexivity.
    + intros _. exact Hl.
    + intros Hnot. elim (Hnot Hl).
    + intros Heq. elim (Println_changes _ _ Heq).
    + reflexivity.
Qed.

Lemma LintLazyLoading_img_iframe_witness :
  (isElement (element "iframe" [attr "loading" "eager"] []) "img" = true
   \/ isElement (element "iframe" [attr "loading" "eager"] []) "iframe" = true)
  /\ Spec.unique_keys (element "iframe" [attr "loading" "eager"] [])
  /\ LintLazyLoading newReport (element "iframe" [attr "loading" "eager"] [])
       "f.html"
     = Println newReport [OString "f.html";
                          OString "<img>/<iframe> missing loading=lazy"].
Proof.
  assert (Hel : isElement (element "iframe" [attr "loading" "eager"] []) "img"
                = true
                \/ isElement (element "iframe" [attr "loading" "eager"] [])
                     "iframe" = true) by (right; reflexivity).
  assert (Hu : Spec.unique_keys (element "iframe" [attr "loading" "eager"] [])).
  { unfold Spec.unique_keys. simpl. constructor; [intros [] | constructor]. }
  split; [exact Hel | split; [exact Hu |]].
  apply (proj1 (LintLazyLoading_img_iframe newReport _ "f.html" Hel Hu)).
  intros a [Ha | []] _. subst a. discriminate.
Defined.

(** C4 as first stated, for every [img] or [iframe] element, fails at
    [<img loading="eager" loading="lazy">]: the element has an attribute
    [loading] of value [lazy], so it does not lack one, and the rule
    records its line all the same, [hasAttribute] stopping at the first
    attribute of the key. *)
Lemma LintLazyLoading_twice_loading_counterexample :
  isElement twiceLoadingImg "img" = true
  /\ In (attr "loading" "lazy") (Attr twiceLoadingImg)
  /\ ~ lacks_attribute twiceLoadingImg "loading" "lazy"
  /\ LintLazyLoading newReport twiceLoadingImg "f.html"
     = Println newReport [OString "f.html";
                          OString "<img>/<iframe> missing loading=lazy"]
  /\ ~ (lacks_attribute twiceLoadingImg "loading" "lazy"
        <-> LintLazyLoading newReport twiceLoadingImg "f.html"
            = Println newReport
                [OString "f.html";
                 OString "<img>/<iframe> missing loading=lazy"]).
Proof.
  assert (Hin : In (attr "loading" "lazy") (Attr twiceLoadingImg))
    by (right; left; reflexivity).
  assert (Hnot : ~ lacks_attribute twiceLoadingImg "loading" "lazy").
  { intros Hl. exact (Hl (attr "loading" "lazy") Hin eq_refl eq_refl). }
  split; [reflexivity | split; [exact Hin | split; [exact Hnot | split]]].
  - reflexivity.
  - intros [_ Hback]. apply Hnot. apply Hback. reflexivity.
Qed.

(** C5.  On an [img] element with no non-empty [width] and no non-empty
    [height], [LintWidthAndHeight] records exactly two lines, the one on
    the width and then the one on the height. *)
Theorem LintWidthAndHeight_both_missing (r : Report) (node : Node) (p : string) :
  isElement node "img" = true ->
  lacks_nonempty node "width" -> lacks_nonempty node "height" ->
  LintWidthAndHeight r node p
  = Println (Println r [OString p; OString "<img> missing width"])
            [OString p; OString "<img> missing height"]
  /\ Writer (LintWidthAndHeight r node p)
     = Writer r ++ [Sprintln [OString p; OString "<img> missing width"];
                    Sprintln [OString p; OString "<img> missing height"]]
  /\ List.length (Writer (LintWidthAndHeight r node p))
     = (List.length (Writer r) + 2)%nat.
Proof.
  intros Himg Hw Hh. unfold LintWidthAndHeight. rewrite Himg.
  rewrite (hasAttribute_wildcard_missing node "width" Hw).
  rewrite (hasAttribute_wildcard_missing node "height" Hh). simpl.
  split; [reflexivity | split].
  - rewrite <- app_assoc. reflexivity.
  - rewrite !length_app. simpl. lia.
Qed.

Lemma LintWidthAndHeight_both_missing_witness :
  isElement (element "img" [attr "src" "goat"; attr "width" ""] []) "img" = true
  /\ List.length
       (Writer (LintWidthAndHeight newReport
                  (element "img" [attr "src" "goat"; attr "width" ""] [])
                  "f.html"))
     = (List.length (Writer newReport) + 2)%nat.
Proof.
  split; [reflexivity |].
  apply (LintWidthAndHeight_both_missing newReport
           (element "img" [attr "src" "goat"; attr "width" ""] []) "f.html").
  - reflexivity.
  - intros a [Ha | [Ha | []]] Hk; subst a; [discriminate | reflexivity].
  - intros a [Ha | [Ha | []]] Hk; subst a; discriminate.
Defined.

(** What [LintTimeFormatting] does on a [time] element: only the first
    child is looked at. *)
Lemma LintTimeFormatting_first_child time_Parse r t attrs c rest p :
  LintTimeFormatting time_Parse r (mkNode t "time" attrs (c :: rest)) p
  = LintTimeFormatting time_Parse r (mkNode t "time" attrs [c]) p.
Proof. reflexivity. Qed.

(** A [time] element whose only child is a text that parses: no line. *)
Lemma LintTimeFormatting_sole_text time_Parse r node s p :
  Spec.sole_text_child node = Some s -> time_Parse timeFormat s = true ->
  LintTimeFormatting time_Parse r node p = r.
Proof.
  unfold Spec.sole_text_child, LintTimeFormatting, FirstChild.
  destruct (Children node) as [| c [| c' cs]]; try discriminate. simpl.
  destruct (NodeType_eqb (Type_ c) TextNode); try discriminate.
  intros Hs Hp. injection Hs as Hs. subst s. simpl. rewrite Hp.
  destruct (isElement node "time"); reflexivity.
Qed.

(** A [time] element with no child, with a first child that is no text, or
    with a first child whose text does not parse: one line. *)
Lemma LintTimeFormatting_one_line time_Parse r node p :
  isElement node "time" = true ->
  match FirstChild node with
  | None => True
  | Some c => NodeType_eqb (Type_ c) TextNode = false
              \/ time_Parse timeFormat (Data c) = false
  end ->
  exists line, LintTimeFormatting time_Parse r node p = record r line.
Proof.
  intros Ht. unfold LintTimeFormatting. rewrite Ht.
  destruct (FirstChild node) as [c |].
  - intros [Hc | Hc].
    + rewrite Hc. simpl. eexists. apply Println_record.
    + destruct (NodeType_eqb (Type_ c) TextNode); simpl.
      * rewrite Hc. eexists. apply Println_record.
      * eexists. apply Println_record.
  - intros _. eexists. apply Println_record.
Qed.

(** C2.  Code against claim at [<time>2 January 2006<b>x</b></time>]: the
    element has two children, so it does not have exactly one child that
    is a text node, and the claim asks for one line; the rule looks at the
    first child only and, the text being one the format accepts, records
    nothing. *)
Theorem LintTimeFormatting_second_child_unreported
        (time_Parse : string -> string -> bool) (r : Report) (p : string) :
  time_Parse timeFormat "2 January 2006" = true ->
  isElement timeWithSecondChild "time" = true
  /\ Spec.sole_text_child timeWithSecondChild = None
  /\ LintTimeFormatting time_Parse r timeWithSecondChild p = r.
Proof.
  intros Hp. split; [reflexivity | split; [reflexivity |]].
  unfold LintTimeFormatting. simpl. rewrite Hp. reflexivity.
Qed.

Lemma LintTimeFormatting_second_child_unreported_witness :
  time.Parse timeFormat "2 January 2006" = true
  /\ LintTimeFormatting time.Parse newReport timeWithSecondChild "f.html"
     = newReport.
Proof.
  split; [reflexivity |].
  apply (LintTimeFormatting_second_child_unreported time.Parse newReport
           "f.html" eq_refl).
Defined.

(* ================================================================== *)
(** ** The nesting scan on the streams of the specification *)
(* ================================================================== *)

(** C1.  Code against claim at the stream that starts with an end tag
    ([</a>] and whatever follows): on the empty stack the scan records the
    underflow line and then panics on [stack[last]], [last] being -1; it
    does not go on to the tokens that follow. *)
Theorem LintNesting_underflow_panics
        (r : Report) (tag : string) (rest : list Token) (p : string) :
  LintNesting r (mkToken EndTagToken tag :: rest) p
  = Panicked (Println r [OString p; OString "tag stack underflow"]).
Proof. reflexivity. Qed.

(** C3.  Code against claim on a stream with one unmatched end tag: after
    any balanced run of tokens, an end tag that closes nothing makes the
    scan record the underflow line and panic, so the scan does not return
    and the tokens after that end tag are not read.  (The two other cases
    of the claim hold: [LintNesting_balanced], [LintNesting_unclosed].) *)
Theorem LintNesting_unmatched_end_tag_panics
        (r : Report) (before after : list Token) (tag p : string) :
  Spec.balanced before ->
  LintNesting r (before ++ mkToken EndTagToken tag :: after) p
  = Panicked (Println r [OString p; OString "tag stack underflow"]).
Proof.
  intros Hb. unfold LintNesting.
  rewrite (nestingLoop_balanced p before Hb). apply nestingLoop_underflow.
Qed.

Lemma LintNesting_unmatched_end_tag_panics_witness :
  Spec.balanced [mkToken StartTagToken "p"; mkToken EndTagToken "p"]
  /\ LintNesting newReport
       ([mkToken StartTagToken "p"; mkToken EndTagToken "p"]
        ++ mkToken EndTagToken "a"
        :: [mkToken StartTagToken "b"; mkToken EndTagToken "b"]) "f.html"
     = Panicked (Println newReport [OString "f.html";
                                    OString "tag stack underflow"]).
Proof.
  assert (Hb : Spec.balanced
                 [mkToken StartTagToken "p"; mkToken EndTagToken "p"]).
  { apply (Spec.balanced_pair "p" [] []); constructor. }
  split; [exact Hb |].
  apply (LintNesting_unmatched_end_tag_panics newReport _ _ "a" "f.html" Hb).
Defined.

(* ================================================================== *)
(** ** The tree walk *)
(* ================================================================== *)

Lemma Contains_app_r (a b sub : string) :
  strings.Contains b sub = true -> strings.Contains (a ++ b) sub = true.
Proof.
  intros H. induction a as [| c a IH]; simpl.
  - exact H.
  - rewrite IH. destruct sub as [| s sub']; [reflexivity |].
    destruct (Ascii.eqb c s && strings.HasPrefix (a ++ b) sub'); reflexivity.
Qed.

Lemma string_app_assoc (a b c : string) :
  ((a ++ b) ++ c)%string = (a ++ (b ++ c))%string.
Proof. induction a as [| x a IH]; simpl; [| rewrite IH]; reflexivity. Qed.

(** C6.  The walk over the tree of [<a name="x"></a>], from a new report:
    one line is recorded, it holds "has name; should use id", and the
    count is 1; the test helper of the package passes on it. *)
Theorem Lint_anchor_name_scenario
        (time_Parse : string -> string -> bool) (p : string) :
  Writer (Lint time_Parse newReport [] anchorDocument p)
  = [Sprintln [OString p; OString "<a> has name; should use id"]]
  /\ strings.Contains
       (Sprintln [OString p; OString "<a> has name; should use id"])
       "has name; should use id" = true
  /\ ErrorCount (Lint time_Parse newReport [] anchorDocument p) = 1%Z
  /\ runTest time_Parse anchorDocument ["<a> has name; should use id"] 1
     = true.
Proof.
  split; [reflexivity | split; [| split; reflexivity]].
  unfold Sprintln. simpl. rewrite string_app_assoc.
  apply Contains_app_r. reflexivity.
Qed.

(** C7.  Code against claim at
    [<figure><div><figcaption>x</figcaption></div></figure>]: no node of
    the tree meets a flagged condition of the rule table (the [figure] has
    a [figcaption] among its descendants), and the walk records the line
    of the caption rule, the count going from 0 to 1.  [hasChild] tests
    the children of the node, then calls itself on the first child of each
    child, so the children of a child are never tested. *)
Theorem Lint_reports_nested_figcaption
        (time_Parse : string -> string -> bool) (p : string) :
  Spec.violation_free time_Parse [] nestedCaptionDocument = true
  /\ Spec.has_descendant nestedCaptionFigure "figcaption" = true
  /\ hasChild nestedCaptionFigure "figcaption" = false
  /\ Writer (Lint time_Parse newReport [] nestedCaptionDocument p)
     = [Sprintln [OString p; OString "<figure> missing <figcaption> child"]]
  /\ ErrorCount (Lint time_Parse newReport [] nestedCaptionDocument p) = 1%Z.
Proof. repeat split. Qed.

(** C9.  The lines a walk records are the same whatever report it is
    given: they are the lines it records on a new report.  Two walks over
    one tree, each on a new report, record the same sequence; and a second
    walk on the report of the first records that sequence once more. *)
Theorem Lint_twice_same_diagnostics
        (time_Parse : string -> string -> bool)
        (ps : list Node) (node : Node) (p : string) :
  (forall r, Writer (Lint time_Parse r ps node p)
             = Writer r ++ Writer (Lint time_Parse newReport ps node p))
  /\ (forall n m, Writer (Lint time_Parse (mkReport [] n) ps node p)
                  = Writer (Lint time_Parse (mkReport [] m) ps node p))
  /\ Writer (Lint time_Parse (Lint time_Parse newReport ps node p) ps node p)
     = Writer (Lint time_Parse newReport ps node p)
       ++ Writer (Lint time_Parse newReport ps node p).
Proof.
  assert (H : forall r, Writer (Lint time_Parse r ps node p)
                        = Writer r
                          ++ Writer (Lint time_Parse newReport ps node p)).
  { intros r. rewrite (Lint_recordAll time_Parse r).
    apply Writer_recordAll. }
  split; [exact H | split].
  - intros n m. rewrite (H (mkReport [] n)), (H (mkReport [] m)).
    reflexivity.
  - apply H.
Qed.

(* ================================================================== *)
(** ** The count of the report *)
(* ================================================================== *)

(** The loop of the driver carries one report from file to file. *)
Lemma lintFiles_app time_Parse args more :
  forall r,
    lintFiles time_Parse r (args ++ more)
    = match lintFiles time_Parse r args with
      | Returned r' => lintFiles time_Parse r' more
      | Panicked r' => Panicked r'
      end.
Proof.
  induction args as [| [pathname f] rest IH]; intros r; simpl.
  - reflexivity.
  - destruct f as [e | e | document e | document tokens]; try apply IH.
    destruct (LintNesting (Lint time_Parse r [] document pathname) tokens
                pathname); [apply IH | reflexivity].
Qed.

Lemma recorded_appends (f : Report -> Report) (r : Report) :
  appends f -> GoInt.inRange (ErrorCount r) -> exists ds, recorded r (f r) ds.
Proof.
  intros [ds H] Hr. exists ds. rewrite H. apply recorded_recordAll. exact Hr.
Qed.



(* ================================================================== *)
(** ** Trees with no flagged node *)
(* ================================================================== *)

Lemma hasParent_has_ancestor ps tag :
  hasParent ps tag = Spec.has_ancestor ps tag.
Proof.
  induction ps as [| q ps IH]; simpl.
  - reflexivity.
  - unfold isElement. rewrite IH.
    destruct (NodeType_eqb (Type_ q) ElementNode && (Data q =? tag));
      reflexivity.
Qed.

(** [hasChild] does find a child of the node itself. *)
Lemma hasChild_direct node tag :
  (exists c, In c (Children node) /\ isElement c tag = true) ->
  hasChild node tag = true.
Proof.
  destruct node as [t d a cs]. simpl. intros [c [Hin Hc]].
  induction cs as [| c0 cs IH].
  - destruct Hin.
  - destruct Hin as [Heq | Hin].
    + subst c0. unfold isElement in Hc. rewrite Hc. reflexivity.
    + destruct (NodeType_eqb (Type_ c0) ElementNode && (Data c0 =? tag));
        [reflexivity |].
      destruct (match Children c0 with
                | [] => false
                | g :: _ => hasChild g tag
                end); [reflexivity |].
      apply IH. exact Hin.
Qed.

Lemma has_descendant_first_child node g gs tag :
  Children node = g :: gs -> Spec.has_descendant g tag = true ->
  Spec.has_descendant node tag = true.
Proof.
  destruct node as [t d a cs]. simpl. intros Hcs Hg. subst cs.
  rewrite Hg. rewrite orb_true_r. reflexivity.
Qed.

(** What [hasChild] finds is a descendant.  The call on a node goes on
    with first children of its children, so the induction carries the
    statement for the children of the node as well. *)
Lemma hasChild_has_descendant_children tag :
  forall node,
    (hasChild node tag = true -> Spec.has_descendant node tag = true)
    /\ Forall (fun c => hasChild c tag = true ->
                        Spec.has_descendant c tag = true) (Children node).
Proof.
  induction node as [t d a cs IH] using Node_children_ind. split.
  - simpl. induction cs as [| c cs IHcs]; intros H.
    + discriminate.
    + inversion IH as [| c' cs' [_ Hgrand] Hcs]; subst.
      unfold isElement.
      destruct (NodeType_eqb (Type_ c) ElementNode && (Data c =? tag));
        [reflexivity |].
      simpl. apply orb_true_iff.
      destruct (Children c) as [| g gs] eqn:Hg.
      * right. apply IHcs; assumption.
      * destruct (hasChild g tag) eqn:Hgc.
        -- left. apply (has_descendant_first_child c g gs tag Hg).
           inversion Hgrand as [| g' gs' Hfirst _]; subst.
           apply Hfirst. exact Hgc.
        -- right. apply IHcs; assumption.
  - simpl. apply (Forall_impl _ (fun c (H : _ /\ _) => proj1 H) IH).
Qed.

Lemma hasChild_has_descendant node tag :
  hasChild node tag = true -> Spec.has_descendant node tag = true.
Proof. apply (proj1 (hasChild_has_descendant_children tag node)). Qed.

Lemma subnodes_child node c :
  In c (Children node) -> incl (subnodes c) (subnodes node).
Proof.
  destruct node as [t d a cs]. simpl. intros Hc n Hn. right.
  induction cs as [| c0 cs IH].
  - destruct Hc.
  - apply in_or_app. destruct Hc as [Heq | Hc].
    + subst c0. left. exact Hn.
    + right. apply IH. exact Hc.
Qed.

Lemma subnodes_self node : In node (subnodes node).
Proof. destruct node. left. reflexivity. Qed.

Section Quiet.

Variable time_Parse : string -> string -> bool.

Lemma lintQuotedAttributes_quiet p attrs :
  existsb (fun a => ((Key a =? "alt") || (Key a =? "title"))
                    && strings.ContainsAny (Val a) straightQuotes) attrs
  = false ->
  forall r, fold_left (lintQuotedAttribute p) attrs r = r.
Proof.
  induction attrs as [| a attrs IH]; simpl; intros H r.
  - reflexivity.
  - apply orb_false_iff in H. destruct H as [Ha Hrest].
    unfold lintQuotedAttribute at 2.
    destruct ((Key a =? "alt") || (Key a =? "title")); simpl in Ha.
    + rewrite Ha. apply IH. exact Hrest.
    + apply IH. exact Hrest.
Qed.

(** A node that meets no flagged condition of the table, has unique keys
    and, if a [figure], a [figcaption] among its own children: the eight
    rules record nothing. *)
Lemma lintNode_quiet r ps node p :
  Spec.unique_keys node -> captioned node ->
  Spec.violates time_Parse ps node = false ->
  lintNode time_Parse r ps node p = r.
Proof.
  intros Hu Hcap Hv. unfold Spec.violates in Hv.
  repeat (apply orb_false_iff in Hv; destruct Hv as [Hv ?]).
  assert (Hlazy : LintLazyLoading r node p = r).
  { unfold LintLazyLoading.
    rewrite !(hasAttribute_unique_keys (Attr node)) by exact Hu.
    destruct (isElement node "img" || isElement node "iframe");
      destruct (Spec.has_attribute (Attr node) "loading" "lazy");
      destruct (isElement node "script");
      destruct (Spec.has_attribute (Attr node) "type" "module");
      simpl in *; try discriminate; reflexivity. }
  assert (Hwh : LintWidthAndHeight r node p = r).
  { unfold LintWidthAndHeight.
    rewrite !(hasAttribute_unique_keys (Attr node)) by exact Hu.
    destruct (isElement node "img");
      destruct (Spec.has_attribute (Attr node) "width" "*");
      destruct (Spec.has_attribute (Attr node) "height" "*");
      simpl in *; try discriminate; reflexivity. }
  assert (Halt : LintAltText r node p = r).
  { unfold LintAltText.
    rewrite !(hasAttribute_unique_keys (Attr node)) by exact Hu.
    destruct (isElement node "img");
      destruct (Spec.has_attribute (Attr node) "alt" "*");
      simpl in *; try discriminate; reflexivity. }
  assert (Hname : LintAName r node p = r).
  { unfold LintAName.
    rewrite !(hasAttribute_unique_keys (Attr node)) by exact Hu.
    destruct (isElement node "a");
      destruct (Spec.has_attribute (Attr node) "name" "*");
      simpl in *; try discriminate; reflexivity. }
  assert (Hfig : LintImgNestedInFigure r ps node p = r).
  { unfold LintImgNestedInFigure. rewrite hasParent_has_ancestor.
    destruct (isElement node "img");
      destruct (Spec.has_ancestor ps "figure");
      simpl in *; try discriminate; reflexivity. }
  assert (Htime : LintTimeFormatting time_Parse r node p = r).
  { destruct (isElement node "time") eqn:Ht.
    - destruct (Spec.sole_text_child node) as [s |] eqn:Hs;
        simpl in *; try discriminate.
      apply (LintTimeFormatting_sole_text time_Parse r node s p Hs).
      destruct (time_Parse timeFormat s); [reflexivity | discriminate].
    - unfold LintTimeFormatting. rewrite Ht. reflexivity. }
  assert (Hcaption : LintFigureHasFigcaption r node p = r).
  { unfold LintFigureHasFigcaption.
    destruct (isElement node "figure") eqn:Hf; [| reflexivity].
    rewrite (hasChild_direct node "figcaption" (Hcap Hf)). reflexivity. }
  assert (Hquotes : LintCurlyQuotes r ps node p = r).
  { unfold LintCurlyQuotes. rewrite !hasParent_has_ancestor.
    match goal with
    | |- (if _ then fold_left _ _ ?r' else ?r') = _ =>
        assert (Htext : r' = r)
    end.
    { destruct (NodeType_eqb (Type_ node) TextNode);
        destruct (Spec.has_ancestor ps "pre");
        destruct (Spec.has_ancestor ps "code");
        destruct (Spec.has_ancestor ps "script");
        destruct (Spec.has_ancestor ps "style");
        destruct (strings.ContainsAny (Data node) straightQuotes);
        simpl in *; try discriminate; reflexivity. }
    rewrite Htext.
    destruct (isElement node "img"); [| reflexivity].
    apply lintQuotedAttributes_quiet. assumption. }
  unfold lintNode. cbv zeta.
  rewrite Hlazy, Hwh, Halt, Hname, Hfig, Htime, Hcaption. exact Hquotes.
Qed.

(** X1.  What of the seventh claim the code does keep: on a tree whose nodes
    have unique attribute keys and whose [figure] elements have their
    [figcaption] among their own children, no flagged node means that the
    walk returns the report it was given. *)
Theorem Lint_violation_free_quiet p :
  forall node ps r,
    (forall n, In n (subnodes node) -> Spec.unique_keys n /\ captioned n) ->
    Spec.violation_free time_Parse ps node = true ->
    Lint time_Parse r ps node p = r.
Proof.
  induction node as [t d a cs IH] using Node_children_ind.
  intros ps r Hall Hvf. rewrite Lint_unfold.
  simpl in Hvf. apply andb_true_iff in Hvf. destruct Hvf as [Hself Hkids].
  apply negb_true_iff in Hself.
  destruct (Hall _ (subnodes_self _)) as [Hu Hcap].
  rewrite (lintNode_quiet r ps _ p Hu Hcap Hself).
  assert (Hsub : forall c, In c cs ->
                   forall n, In n (subnodes c) ->
                             Spec.unique_keys n /\ captioned n).
  { intros c Hc n Hn. apply Hall.
    apply (subnodes_child (mkNode t d a cs) c Hc n Hn). }
  simpl Children. clear Hall Hself Hu Hcap.
  revert Hkids. generalize (mkNode t d a cs :: ps). intros up Hkids.
  induction cs as [| c cs IHcs]; simpl.
  - reflexivity.
  - apply andb_true_iff in Hkids. destruct Hkids as [Hc Hrest].
    inversion IH as [| c' cs' Hfirst Hothers]; subst.
    rewrite (Hfirst up r (Hsub c (or_introl eq_refl)) Hc).
    apply IHcs.
    + exact Hothers.
    + intros c1 Hc1. apply Hsub. right. exact Hc1.
    + exact Hrest.
Qed.

End Quiet.

Lemma Lint_violation_free_quiet_example :
  Spec.violation_free time.Parse []
    (document [element "figure" []
                 [element "figcaption" [] [text "x"];
                  element "time" [] [text "2 January 2006"]]]) = true
  /\ Lint time.Parse newReport []
       (document [element "figure" []
                    [element "figcaption" [] [text "x"];
                     element "time" [] [text "2 January 2006"]]]) "f.html"
     = newReport.
Proof.
  split; [reflexivity |].
  apply Lint_violation_free_quiet; [| reflexivity].
  intros n Hn. simpl in Hn.
  repeat (destruct Hn as [Hn | Hn];
          [subst n; split;
           [unfold Spec.unique_keys; simpl; constructor
           | intros Hf;
             first [ discriminate Hf
                   | exists (element "figcaption" [] [text "x"]);
                     split; [left; reflexivity | reflexivity] ]] |]).
  destruct Hn.
Defined.

(* ================================================================== *)
(** ** More on the walk and the scan *)
(* ================================================================== *)

(** X2.  The walk is depth-first and pre-order: it is the eight rules applied
    at each visit in turn, a node before its children and a child with all
    below it before the next child, every node once and with its own
    ancestors. *)
Theorem Lint_preorder (time_Parse : string -> string -> bool) (p : string) :
  forall node ps r,
    Lint time_Parse r ps node p
    = fold_left (fun r v => lintNode time_Parse r (fst v) (snd v) p)
        (visits ps node) r.
Proof.
  induction node as [t d a cs IH] using Node_children_ind.
  intros ps r. rewrite Lint_unfold. simpl.
  generalize (lintNode time_Parse r ps (mkNode t d a cs) p).
  generalize (mkNode t d a cs :: ps). intros up.
  induction cs as [| c cs IHcs]; intros r0; simpl.
  - reflexivity.
  - inversion IH as [| c' cs' Hc Hcs]; subst.
    rewrite fold_left_app, <- Hc. apply IHcs. exact Hcs.
Qed.

(** X3.  Balanced input, whatever lies between the tags: the scan returns the
    report it was given. *)
Theorem LintNesting_balanced_quiet (r : Report) (ts : list Token) (p : string) :
  Spec.balanced ts -> LintNesting r ts p = Returned r.
Proof. apply LintNesting_balanced. Qed.

Lemma LintNesting_balanced_quiet_witness :
  Spec.balanced [mkToken StartTagToken "p"; mkToken TextToken "";
                 mkToken SelfClosingTagToken "br"; mkToken EndTagToken "p"]
  /\ LintNesting newReport
       [mkToken StartTagToken "p"; mkToken TextToken "";
        mkToken SelfClosingTagToken "br"; mkToken EndTagToken "p"] "f.html"
     = Returned newReport.
Proof.
  assert (Hb : Spec.balanced
                 [mkToken StartTagToken "p"; mkToken TextToken "";
                  mkToken SelfClosingTagToken "br"; mkToken EndTagToken "p"]).
  { apply (Spec.balanced_pair "p"
             [mkToken TextToken ""; mkToken SelfClosingTagToken "br"] []).
    - repeat (apply Spec.balanced_other; try discriminate).
      apply Spec.balanced_nil.
    - apply Spec.balanced_nil. }
  split; [exact Hb |].
  apply (LintNesting_balanced_quiet newReport _ "f.html" Hb).
Defined.

(** X4.  Input that leaves [names] open, balanced otherwise: the scan returns
    with one more line, the one that lists [names] in the order the tags
    were opened. *)
Theorem LintNesting_unclosed_line
        (r : Report) (names : list string) (ts : list Token) (p : string) :
  Spec.leaves_open names ts -> names <> [] ->
  LintNesting r ts p
  = Returned (Println r [OString p; OString "Unclosed tags"; OStrings names])
  /\ Writer (reportOf (LintNesting r ts p))
     = Writer r
       ++ [(p ++ " Unclosed tags [" ++ strings.Join names " " ++ "]"
              ++ newline)%string].
Proof.
  intros Ho Hne. rewrite (LintNesting_unclosed r names ts p Ho Hne).
  split; [reflexivity |]. simpl. unfold Sprintln. simpl.
  repeat (rewrite string_app_assoc; simpl). reflexivity.
Qed.

Lemma LintNesting_unclosed_line_witness :
  Spec.leaves_open ["ul"; "li"]
    [mkToken StartTagToken "ul"; mkToken StartTagToken "li"]
  /\ Writer (reportOf
               (LintNesting newReport
                  [mkToken StartTagToken "ul"; mkToken StartTagToken "li"]
                  "f.html"))
     = Writer newReport
       ++ [("f.html" ++ " Unclosed tags [" ++ strings.Join ["ul"; "li"] " "
              ++ "]" ++ newline)%string].
Proof.
  assert (Ho : Spec.leaves_open ["ul"; "li"]
                 [mkToken StartTagToken "ul"; mkToken StartTagToken "li"]).
  { apply (Spec.leaves_more "ul" ["li"] [] [mkToken StartTagToken "li"]).
    - apply Spec.balanced_nil.
    - apply (Spec.leaves_more "li" [] [] []).
      + apply Spec.balanced_nil.
      + apply Spec.leaves_none. apply Spec.balanced_nil. }
  split; [exact Ho |].
  apply (LintNesting_unclosed_line newReport ["ul"; "li"] _ "f.html" Ho).
  discriminate.
Defined.

(* ================================================================== *)
(** ** The tests of the package *)
(* ================================================================== *)

(** The embedding passes the tests the package has for the tree walk
    ([runTest] on each document, with the messages and the count each
    test expects). *)

Example TestLintLazyLoading :
  runTest time.Parse lazyLoadingDocument
    ["<img>/<iframe> missing loading=lazy"] 2 = true.
Proof. reflexivity. Qed.

Example TestLintWidthAndHeight :
  runTest time.Parse widthAndHeightDocument
    ["<img> missing width"; "<img> missing height"] 2 = true.
Proof. reflexivity. Qed.

Example TestLintAltText :
  runTest time.Parse altTextDocument ["<img> missing alt"] 1 = true.
Proof. reflexivity. Qed.

Example TestLintAName :
  runTest time.Parse florbDocument ["<a> has name; should use id"] 1 = true.
Proof. reflexivity. Qed.

Example TestLintImgNestedInFigure :
  runTest time.Parse bareImgDocument ["<img> not inside <figure>"] 1 = true.
Proof. reflexivity. Qed.

Example TestLintTimeFormatting :
  runTest time.Parse timeDocument
    ["<time> needs exactly 1 text child"; "does not have correct format"] 2
  = true.
Proof. reflexivity. Qed.

Example TestLintFigureHasFigcaption :
  runTest time.Parse helloFigureDocument
    ["<figure> missing <figcaption> child"] 1 = true.
Proof. reflexivity. Qed.

Example TestLintCurlyQuotes :
  runTest time.Parse curlyQuotesDocument
    ["contains non-curly quotes text node";
     "<img> alt or title contains non-curly quotes"] 3 = true.
Proof. reflexivity. Qed.

(* ================================================================== *)
(** ** The predicates against their contracts *)
(* ================================================================== *)

(** X5.  On a list with unique keys [hasAttribute] answers as its contract
    says: [true] exactly when the list holds an attribute of the key whose
    value is non-empty (wildcard ["*"]) or is the value asked for. *)
Theorem hasAttribute_meets_contract
        (attrs : list Attribute) (key value : string) :
  NoDup (map Key attrs) ->
  (hasAttribute attrs key value = true
   <-> exists a, In a attrs /\ Key a = key
                 /\ (if value =? "*" then Val a <> "" else Val a = value)).
Proof.
  intros Hnd. rewrite (hasAttribute_unique_keys attrs key value Hnd).
  unfold Spec.has_attribute. rewrite existsb_exists.
  split; intros [a [Hin Hfit]]; exists a; (split; [exact Hin |]).
  - apply andb_true_iff in Hfit. destruct Hfit as [Hk Hv].
    apply String.eqb_eq in Hk. split; [exact Hk |].
    destruct (value =? "*").
    + apply negb_true_iff in Hv. apply String.eqb_neq. exact Hv.
    + apply String.eqb_eq. exact Hv.
  - destruct Hfit as [Hk Hv]. apply andb_true_iff. split.
    + apply String.eqb_eq. exact Hk.
    + destruct (value =? "*").
      * apply negb_true_iff. apply String.eqb_neq. exact Hv.
      * apply String.eqb_eq. exact Hv.
Qed.

Lemma hasAttribute_meets_contract_witness :
  NoDup (map Key [attr "src" "goat"; attr "width" "0"])
  /\ hasAttribute [attr "src" "goat"; attr "width" "0"] "width" "*" = true.
Proof.
  assert (Hnd : NoDup (map Key [attr "src" "goat"; attr "width" "0"])).
  { simpl. constructor.
    - intros [H | []]. discriminate H.
    - constructor; [intros [] | constructor]. }
  split; [exact Hnd |].
  apply (proj2 (hasAttribute_meets_contract _ "width" "*" Hnd)).
  exists (attr "width" "0"). split; [right; left; reflexivity |].
  split; [reflexivity | discriminate].
Defined.

(** X6.  [hasParent] answers [true] exactly when one of the ancestors of
    the node is an element of the tag. *)
Theorem hasParent_meets_contract (parents : list Node) (tag : string) :
  hasParent parents tag = true
  <-> exists q, In q parents /\ isElement q tag = true.
Proof.
  rewrite hasParent_has_ancestor. unfold Spec.has_ancestor.
  apply existsb_exists.
Qed.

(** X7.  An end tag met on a stack whose top is another name: the line
    that names both is recorded, the top is removed all the same, and the
    scan goes on. *)
Theorem nestingLoop_unmatched_pair
        (r : Report) (stack : list string) (previous tag : string)
        (rest : list Token) (p : string) :
  tag <> previous ->
  nestingLoop r (stack ++ [previous]) (mkToken EndTagToken tag :: rest) p
  = nestingLoop
      (Println r [OString p; OString "Unmatched pair"; OString tag;
                  OString previous])
      stack rest p.
Proof.
  intros Hne. simpl. rewrite index_last, sliceTo_last.
  destruct (len_zero (stack ++ [previous])) as [Hz _].
  destruct (len (stack ++ [previous]) =? 0)%Z.
  - specialize (Hz eq_refl). destruct stack; discriminate.
  - apply String.eqb_neq in Hne. rewrite Hne. reflexivity.
Qed.

Lemma nestingLoop_unmatched_pair_witness :
  "b" <> "a"
  /\ LintNesting newReport
       [mkToken StartTagToken "a"; mkToken EndTagToken "b"] "f.html"
     = Returned (Println newReport
                   [OString "f.html"; OString "Unmatched pair"; OString "b";
                    OString "a"]).
Proof.
  assert (Hne : "b" <> "a") by discriminate.
  split; [exact Hne |].
  exact (nestingLoop_unmatched_pair newReport [] "a" "b" [] "f.html" Hne).
Defined.

(* ================================================================== *)
(** ** When the nesting scan panics, and what it does not read *)
(* ================================================================== *)

(** One turn of the loop on an end tag, the stack not being empty. *)
Lemma nestingLoop_end_tag r stack top tag rest p :
  nestingLoop r (stack ++ [top]) (mkToken EndTagToken tag :: rest) p
  = nestingLoop
      (if negb (tag =? top)
       then Println r [OString p; OString "Unmatched pair"; OString tag;
                       OString top]
       else r) stack rest p.
Proof.
  simpl. rewrite index_last, sliceTo_last.
  destruct (len_zero (stack ++ [top])) as [Hz _].
  destruct (len (stack ++ [top]) =? 0)%Z.
  - specialize (Hz eq_refl). destruct stack; discriminate.
  - reflexivity.
Qed.

Lemma nestingLoop_isPanicked p tokens :
  forall r stack,
    isPanicked (nestingLoop r stack tokens p)
    = underflows (List.length stack) tokens.
Proof.
  induction tokens as [| [ty tag] rest IH]; intros r stack.
  - simpl. unfold nestingEnd. destruct (negb (len stack =? 0)%Z); reflexivity.
  - destruct ty; try (simpl; apply IH).
    + simpl. unfold nestingEnd.
      destruct (negb (len stack =? 0)%Z); reflexivity.
    + simpl. rewrite IH. rewrite length_app. simpl.
      rewrite Nat.add_1_r. reflexivity.
    + destruct stack as [| h t].
      * reflexivity.
      * destruct (@exists_last _ (h :: t)) as [s [top Hs]]; [discriminate |].
        rewrite Hs, nestingLoop_end_tag, IH, length_app. simpl.
        rewrite Nat.add_1_r. reflexivity.
Qed.

(** X8.  The scan panics exactly when, counting the start tags up and the
    end tags down from zero, an end tag comes at zero before the input
    ends or an [ErrorToken] is met; on every other stream it returns. *)
Theorem LintNesting_panics_iff_underflow
        (r : Report) (tokens : list Token) (p : string) :
  isPanicked (LintNesting r tokens p) = underflows 0 tokens.
Proof. unfold LintNesting. apply (nestingLoop_isPanicked p tokens r []). Qed.

Lemma nestingLoop_skips_unscanned p tokens :
  forall r stack,
    nestingLoop r stack tokens p = nestingLoop r stack (filter scanned tokens) p.
Proof.
  induction tokens as [| [ty tag] rest IH]; intros r stack.
  - reflexivity.
  - destruct ty; simpl; unfold scanned; simpl; try apply IH; try reflexivity.
    destruct (index stack (len stack - 1)) as [previous |]; [| reflexivity].
    destruct (sliceTo stack (len stack - 1)) as [stack' |]; [| reflexivity].
    apply IH.
Qed.

(** X9.  Text, comment, doctype and self-closing tokens do not count: the
    scan of a stream is the scan of what is left of it once they are
    taken out. *)
Theorem LintNesting_skips_unscanned
        (r : Report) (tokens : list Token) (p : string) :
  LintNesting r tokens p = LintNesting r (filter scanned tokens) p.
Proof. unfold LintNesting. apply nestingLoop_skips_unscanned. Qed.

Lemma nestingLoop_stops_at_error p name after before :
  forall r stack,
    nestingLoop r stack (before ++ mkToken ErrorToken name :: after) p
    = nestingLoop r stack before p.
Proof.
  induction before as [| [ty tag] rest IH]; intros r stack.
  - reflexivity.
  - destruct ty; simpl; try apply IH; try reflexivity.
    destruct (index stack (len stack - 1)) as [previous |]; [| reflexivity].
    destruct (sliceTo stack (len stack - 1)) as [stack' |]; [| reflexivity].
    apply IH.
Qed.

(** X10.  An [ErrorToken] ends the scan as the end of the input does:
    nothing that follows it is read, and the tags still open at that point
    are listed as unclosed. *)
Theorem LintNesting_stops_at_error
        (r : Report) (before after : list Token) (name p : string) :
  LintNesting r (before ++ mkToken ErrorToken name :: after) p
  = LintNesting r before p.
Proof. unfold LintNesting. apply nestingLoop_stops_at_error. Qed.

Lemma nestingLoop_without_balanced p middle after :
  Spec.balanced middle ->
  forall before r stack,
    nestingLoop r stack (before ++ middle ++ after) p
    = nestingLoop r stack (before ++ after) p.
Proof.
  intros Hb. induction before as [| [ty tag] rest IH]; intros r stack.
  - simpl. apply (nestingLoop_balanced p middle Hb).
  - destruct ty; simpl; try apply IH; try reflexivity.
    destruct (index stack (len stack - 1)) as [previous |]; [| reflexivity].
    destruct (sliceTo stack (len stack - 1)) as [stack' |]; [| reflexivity].
    apply IH.
Qed.

(** X11.  A balanced run of tokens can be taken out of a stream, wherever
    it stands, without any change to what the scan does: same lines, same
    outcome. *)
Theorem LintNesting_without_balanced
        (r : Report) (before middle after : list Token) (p : string) :
  Spec.balanced middle ->
  LintNesting r (before ++ middle ++ after) p
  = LintNesting r (before ++ after) p.
Proof.
  intros Hb. unfold LintNesting.
  apply (nestingLoop_without_balanced p middle after Hb).
Qed.

Lemma LintNesting_without_balanced_witness :
  Spec.balanced [mkToken StartTagToken "i"; mkToken EndTagToken "i"]
  /\ LintNesting newReport
       ([mkToken StartTagToken "p"]
        ++ [mkToken StartTagToken "i"; mkToken EndTagToken "i"]
        ++ [mkToken EndTagToken "q"]) "f.html"
     = LintNesting newReport
         ([mkToken StartTagToken "p"] ++ [mkToken EndTagToken "q"]) "f.html".
Proof.
  assert (Hb : Spec.balanced
                 [mkToken StartTagToken "i"; mkToken EndTagToken "i"]).
  { apply (Spec.balanced_pair "i" [] []); apply Spec.balanced_nil. }
  split; [exact Hb |].
  apply (LintNesting_without_balanced newReport _ _ _ "f.html" Hb).
Defined.

(* ================================================================== *)
(** ** The shape of the lines *)
(* ================================================================== *)

Lemma Join_two_or_more (a b : string) (l : list string) (sep : string) :
  strings.Join (a :: b :: l) sep
  = (a ++ sep ++ strings.Join (b :: l) sep)%string.
Proof. reflexivity. Qed.

Lemma Sprintln_attributed p o os : attributed p (Sprintln (OString p :: o :: os)).
Proof.
  exists (strings.Join (map format (o :: os)) " ").
  unfold Sprintln. simpl map. rewrite Join_two_or_more.
  rewrite !string_app_assoc. reflexivity.
Qed.

Section Attributed.

Variable time_Parse : string -> string -> bool.
Variable p : string.

(** All the lines of a report are lines on [p]. *)
Let onPath (r : Report) : Prop := Forall (attributed p) (Writer r).

Lemma onPath_Println r o os :
  onPath r -> onPath (Println r (OString p :: o :: os)).
Proof.
  intros H. unfold onPath. simpl. apply Forall_app. split; [exact H |].
  constructor; [apply Sprintln_attributed | constructor].
Qed.

Ltac keeps_onPath :=
  split_tests; repeat apply onPath_Println; assumption.

Lemma onPath_lintQuotedAttributes attrs :
  forall r, onPath r -> onPath (fold_left (lintQuotedAttribute p) attrs r).
Proof.
  induction attrs as [| a attrs IH]; intros r H; simpl.
  - exact H.
  - apply IH. unfold lintQuotedAttribute. keeps_onPath.
Qed.

Lemma onPath_lintNode r ps node :
  onPath r -> onPath (lintNode time_Parse r ps node p).
Proof.
  intros H. unfold lintNode. cbv zeta.
  assert (H1 : onPath (LintLazyLoading r node p))
    by (unfold LintLazyLoading; keeps_onPath).
  assert (H2 : onPath (LintWidthAndHeight (LintLazyLoading r node p) node p))
    by (unfold LintWidthAndHeight; keeps_onPath).
  revert H2. generalize (LintWidthAndHeight (LintLazyLoading r node p) node p).
  clear H H1. intros r2 H2.
  assert (H3 : onPath (LintAltText r2 node p))
    by (unfold LintAltText; keeps_onPath).
  revert H3. generalize (LintAltText r2 node p). clear H2. intros r3 H3.
  assert (H4 : onPath (LintAName r3 node p))
    by (unfold LintAName; keeps_onPath).
  revert H4. generalize (LintAName r3 node p). clear H3. intros r4 H4.
  assert (H5 : onPath (LintImgNestedInFigure r4 ps node p))
    by (unfold LintImgNestedInFigure; keeps_onPath).
  revert H5. generalize (LintImgNestedInFigure r4 ps node p). clear H4.
  intros r5 H5.
  assert (H6 : onPath (LintTimeFormatting time_Parse r5 node p))
    by (unfold LintTimeFormatting; keeps_onPath).
  revert H6. generalize (LintTimeFormatting time_Parse r5 node p). clear H5.
  intros r6 H6.
  assert (H7 : onPath (LintFigureHasFigcaption r6 node p))
    by (unfold LintFigureHasFigcaption; keeps_onPath).
  revert H7. generalize (LintFigureHasFigcaption r6 node p). clear H6.
  intros r7 H7.
  unfold LintCurlyQuotes. cbv zeta.
  destruct (isElement node "img").
  - apply onPath_lintQuotedAttributes. keeps_onPath.
  - keeps_onPath.
Qed.

Lemma onPath_Lint node :
  forall ps r, onPath r -> onPath (Lint time_Parse r ps node p).
Proof.
  induction node as [t d a cs IH] using Node_children_ind.
  intros ps r H. rewrite Lint_unfold. simpl Children.
  pose proof (onPath_lintNode r ps (mkNode t d a cs) H) as H0.
  revert H0. generalize (lintNode time_Parse r ps (mkNode t d a cs) p).
  generalize (mkNode t d a cs :: ps). clear H. intros up.
  induction cs as [| c cs IHcs]; intros r0 H0; simpl.
  - exact H0.
  - inversion IH as [| c' cs' Hc Hcs]; subst.
    apply (IHcs Hcs). apply Hc. exact H0.
Qed.

Lemma onPath_nestingLoop tokens :
  forall r stack,
    onPath r -> onPath (reportOf (nestingLoop r stack tokens p)).
Proof.
  induction tokens as [| [ty tag] rest IH]; intros r stack H.
  - simpl. unfold nestingEnd.
    destruct (negb (len stack =? 0)%Z); simpl;
      [apply onPath_Println |]; exact H.
  - destruct ty; simpl; try (apply IH; exact H).
    + unfold nestingEnd.
      destruct (negb (len stack =? 0)%Z); simpl;
        [apply onPath_Println |]; exact H.
    + assert (Hu : onPath (if (len stack =? 0)%Z
                           then Println r [OString p;
                                           OString "tag stack underflow"]
                           else r))
        by (destruct (len stack =? 0)%Z; [apply onPath_Println |]; exact H).
      revert Hu.
      generalize (if (len stack =? 0)%Z
                  then Println r [OString p; OString "tag stack underflow"]
                  else r).
      intros r1 H1.
      destruct (index stack (len stack - 1)) as [previous |]; [| exact H1].
      assert (Hm : onPath (if negb (tag =? previous)
                           then Println r1 [OString p;
                                            OString "Unmatched pair";
                                            OString tag; OString previous]
                           else r1))
        by (destruct (negb (tag =? previous)); [apply onPath_Println |];
            exact H1).
      destruct (sliceTo stack (len stack - 1)) as [stack' |];
        [apply IH |]; exact Hm.
Qed.

(** X12.  Every line the tree walk and the nesting scan record is the
    path name they were given, a space, a message and a line break: no
    line of theirs goes without the name of its file. *)
Theorem lines_carry_the_path_name
        (ps : list Node) (node : Node) (tokens : list Token) :
  Forall (attributed p) (Writer (Lint time_Parse newReport ps node p))
  /\ Forall (attributed p)
       (Writer (reportOf (LintNesting newReport tokens p))).
Proof.
  split.
  - apply (onPath_Lint node ps newReport). constructor.
  - apply (onPath_nestingLoop tokens newReport []). constructor.
Qed.

End Attributed.

(* ================================================================== *)
(** ** What each rule reports, and what it never does *)
(* ================================================================== *)

Lemma record_changes r line : record r line <> r.
Proof.
  intros H. apply (f_equal (fun x => List.length (Writer x))) in H.
  simpl in H. rewrite length_app in H. simpl in H. lia.
Qed.

(** X13.  A node that is no text node and no element of one of the six
    tags the rules name ([img], [iframe], [script], [a], [time],
    [figure]) is never reported, whatever its data, attributes, children
    and ancestors: document, comment and doctype nodes, and every other
    element. *)
Theorem lintNode_other_nodes_quiet
        (time_Parse : string -> string -> bool)
        (r : Report) (ps : list Node) (node : Node) (p : string) :
  NodeType_eqb (Type_ node) TextNode = false ->
  (forall tag, In tag ["img"; "iframe"; "script"; "a"; "time"; "figure"] ->
               isElement node tag = false) ->
  lintNode time_Parse r ps node p = r.
Proof.
  intros Htext Htags.
  assert (Hat : forall tag,
             In tag ["img"; "iframe"; "script"; "a"; "time"; "figure"] ->
             isElement node tag = false) by exact Htags.
  unfold lintNode, LintLazyLoading, LintWidthAndHeight, LintAltText,
    LintAName, LintImgNestedInFigure, LintTimeFormatting,
    LintFigureHasFigcaption, LintCurlyQuotes.
  cbv zeta.
  rewrite (Hat "img"), (Hat "iframe"), (Hat "script"), (Hat "a"),
    (Hat "time"), (Hat "figure"), Htext by (simpl; tauto).
  reflexivity.
Qed.

Lemma lintNode_other_nodes_quiet_witness :
  NodeType_eqb (Type_ (mkNode CommentNode "it's" [attr "alt" "'"] [])) TextNode
  = false
  /\ lintNode time.Parse newReport []
       (mkNode CommentNode "it's" [attr "alt" "'"] []) "f.html"
     = newReport.
Proof.
  split; [reflexivity |].
  apply (lintNode_other_nodes_quiet time.Parse newReport []
           (mkNode CommentNode "it's" [attr "alt" "'"] []) "f.html").
  - reflexivity.
  - intros tag _. reflexivity.
Defined.

(** X14.  The verdict of [LintTimeFormatting] on a [time] element rests
    on its first child alone: nothing is recorded exactly when there is a
    first child, it is a text node and its text parses under the layout;
    in every other case exactly one line is recorded.  Children after the
    first have no part in it. *)
Theorem LintTimeFormatting_verdict
        (time_Parse : string -> string -> bool)
        (r : Report) (node : Node) (p : string) :
  isElement node "time" = true ->
  (LintTimeFormatting time_Parse r node p = r
   <-> exists c, FirstChild node = Some c
                 /\ NodeType_eqb (Type_ c) TextNode = true
                 /\ time_Parse timeFormat (Data c) = true)
  /\ (LintTimeFormatting time_Parse r node p = r
      \/ exists line, LintTimeFormatting time_Parse r node p = record r line).
Proof.
  intros Ht. unfold LintTimeFormatting. rewrite Ht.
  destruct (FirstChild node) as [c |].
  - destruct (NodeType_eqb (Type_ c) TextNode) eqn:Hc; simpl.
    + destruct (time_Parse timeFormat (Data c)) eqn:Hp.
      * split; [| left; reflexivity].
        split; [intros _; exists c; auto | reflexivity].
      * split; [| right; eexists; apply Println_record].
        split.
        -- intros H. elim (Println_changes _ _ H).
        -- intros [c' [Hc' [_ Hp']]]. injection Hc' as Hc'. subst c'.
           rewrite Hp in Hp'. discriminate.
    + split; [| right; eexists; apply Println_record].
      split.
      * intros H. elim (Println_changes _ _ H).
      * intros [c' [Hc' [Ht' _]]]. injection Hc' as Hc'. subst c'.
        rewrite Hc in Ht'. discriminate.
  - split; [| right; eexists; apply Println_record].
    split.
    + intros H. elim (Println_changes _ _ H).
    + intros [c' [Hc' _]]. discriminate.
Qed.

Lemma LintTimeFormatting_verdict_witness :
  isElement (element "time" [] [element "b" [] [text "2 January 2006"]])
            "time" = true
  /\ (LintTimeFormatting time.Parse newReport
        (element "time" [] [element "b" [] [text "2 January 2006"]]) "f.html"
      = newReport
      \/ exists line,
          LintTimeFormatting time.Parse newReport
            (element "time" [] [element "b" [] [text "2 January 2006"]])
            "f.html"
          = record newReport line).
Proof.
  split; [reflexivity |].
  apply (proj2 (LintTimeFormatting_verdict time.Parse newReport
                  (element "time" [] [element "b" [] [text "2 January 2006"]])
                  "f.html" eq_refl)).
Defined.

Lemma has_attribute_wildcard_false node key :
  Spec.has_attribute (Attr node) key "*" = false <-> lacks_nonempty node key.
Proof.
  unfold Spec.has_attribute, lacks_nonempty. simpl. split.
  - intros Hex a Ha Hk. destruct (String.eqb_spec (Val a) "") as [Hv | Hv];
      [exact Hv |].
    assert (Ht : existsb (fun a => (Key a =? key) && negb (Val a =? ""))
                   (Attr node) = true).
    { apply existsb_exists. exists a. split; [exact Ha |].
      rewrite Hk, String.eqb_refl. apply String.eqb_neq in Hv. rewrite Hv.
      reflexivity. }
    rewrite Ht in Hex. discriminate.
  - intros Hl. apply not_true_is_false. intros Hex.
    apply existsb_exists in Hex. destruct Hex as [a [Ha Hfit]].
    apply andb_true_iff in Hfit. destruct Hfit as [Hk Hv].
    apply String.eqb_eq in Hk. rewrite (Hl a Ha Hk) in Hv. discriminate.
Qed.

(** X15.  On an [img] element whose attribute keys are unique,
    [LintAltText] records its one line exactly when the element has no
    [alt] attribute of non-empty value: an [alt] that is there and empty
    is reported like one that is missing. *)
Theorem LintAltText_img (r : Report) (node : Node) (p : string) :
  isElement node "img" = true -> Spec.unique_keys node ->
  (lacks_nonempty node "alt" <->
   LintAltText r node p = Println r [OString p; OString "<img> missing alt"])
  /\ (~ lacks_nonempty node "alt" <-> LintAltText r node p = r).
Proof.
  intros Himg Hu. unfold LintAltText. rewrite Himg.
  rewrite (hasAttribute_unique_keys _ "alt" "*" Hu).
  pose proof (has_attribute_wildcard_false node "alt") as Hl.
  destruct (Spec.has_attribute (Attr node) "alt" "*"); simpl.
  - assert (Hnot : ~ lacks_nonempty node "alt")
      by (intros H; apply Hl in H; discriminate).
    split; split.
    + intros H. elim (Hnot H).
    + intros H. symmetry in H. elim (Println_changes _ _ H).
    + reflexivity.
    + intros _. exact Hnot.
  - assert (Hyes : lacks_nonempty node "alt") by (apply Hl; reflexivity).
    split; split.
    + reflexivity.
    + intros _. exact Hyes.
    + intros H. elim (H Hyes).
    + intros H. elim (Println_changes _ _ H).
Qed.

Lemma LintAltText_img_witness :
  isElement (element "img" [attr "alt" ""] []) "img" = true
  /\ Spec.unique_keys (element "img" [attr "alt" ""] [])
  /\ LintAltText newReport (element "img" [attr "alt" ""] []) "f.html"
     = Println newReport [OString "f.html"; OString "<img> missing alt"].
Proof.
  assert (Hu : Spec.unique_keys (element "img" [attr "alt" ""] [])).
  { unfold Spec.unique_keys. simpl. constructor; [intros [] | constructor]. }
  split; [reflexivity | split; [exact Hu |]].
  apply (proj1 (LintAltText_img newReport
                  (element "img" [attr "alt" ""] []) "f.html" eq_refl Hu)).
  intros a [Ha | []] _. subst a. reflexivity.
Defined.

(** X16.  On an [a] element whose attribute keys are unique, [LintAName]
    records its one line exactly when the element has a [name] attribute
    of non-empty value: an empty [name] is let through. *)
Theorem LintAName_anchor (r : Report) (node : Node) (p : string) :
  isElement node "a" = true -> Spec.unique_keys node ->
  (lacks_nonempty node "name" <-> LintAName r node p = r)
  /\ (~ lacks_nonempty node "name" <->
      LintAName r node p
      = Println r [OString p; OString "<a> has name; should use id"]).
Proof.
  intros Ha Hu. unfold LintAName. rewrite Ha.
  rewrite (hasAttribute_unique_keys _ "name" "*" Hu).
  pose proof (has_attribute_wildcard_false node "name") as Hl.
  destruct (Spec.has_attribute (Attr node) "name" "*"); simpl.
  - assert (Hnot : ~ lacks_nonempty node "name")
      by (intros H; apply Hl in H; discriminate).
    split; split.
    + intros H. elim (Hnot H).
    + intros H. elim (Println_changes _ _ H).
    + reflexivity.
    + intros _. exact Hnot.
  - assert (Hyes : lacks_nonempty node "name") by (apply Hl; reflexivity).
    split; split.
    + reflexivity.
    + intros _. exact Hyes.
    + intros H. elim (H Hyes).
    + intros H. symmetry in H. elim (Println_changes _ _ H).
Qed.

Lemma LintAName_anchor_witness :
  isElement (element "a" [attr "href" "#x"; attr "name" ""] []) "a" = true
  /\ Spec.unique_keys (element "a" [attr "href" "#x"; attr "name" ""] [])
  /\ LintAName newReport (element "a" [attr "href" "#x"; attr "name" ""] [])
       "f.html" = newReport.
Proof.
  assert (Hu : Spec.unique_keys
                 (element "a" [attr "href" "#x"; attr "name" ""] [])).
  { unfold Spec.unique_keys. simpl. constructor.
    - intros [H | []]. discriminate H.
    - constructor; [intros [] | constructor]. }
  split; [reflexivity | split; [exact Hu |]].
  apply (proj1 (LintAName_anchor newReport
                  (element "a" [attr "href" "#x"; attr "name" ""] []) "f.html"
                  eq_refl Hu)).
  intros a [Ha | [Ha | []]] Hk; subst a; [discriminate | reflexivity].
Defined.

Lemma isElement_other_tag node tag tag' :
  isElement node tag = true -> tag' <> tag -> isElement node tag' = false.
Proof.
  unfold isElement. intros H Hne. apply andb_true_iff in H.
  destruct H as [_ Hd]. apply String.eqb_eq in Hd. rewrite Hd.
  apply String.eqb_neq in Hne. rewrite String.eqb_sym, Hne.
  apply andb_false_r.
Qed.

(** X17.  On a [script] element whose attribute keys are unique,
    [LintLazyLoading] records its one line exactly when the element has
    no attribute [type] of value [module]; a script with no [type] at all
    is reported like one of another type. *)
Theorem LintLazyLoading_script (r : Report) (node : Node) (p : string) :
  isElement node "script" = true -> Spec.unique_keys node ->
  (lacks_attribute node "type" "module" <->
   LintLazyLoading r node p
   = Println r [OString p; OString "<script> missing type=module"])
  /\ (~ lacks_attribute node "type" "module" <-> LintLazyLoading r node p = r).
Proof.
  intros Hs Hu. unfold LintLazyLoading.
  rewrite (isElement_other_tag node "script" "img" Hs) by discriminate.
  rewrite (isElement_other_tag node "script" "iframe" Hs) by discriminate.
  rewrite Hs. simpl.
  rewrite (hasAttribute_unique_keys _ "type" "module" Hu).
  pose proof (has_attribute_exact_false node "type" "module" eq_refl) as Hl.
  destruct (Spec.has_attribute (Attr node) "type" "module"); simpl.
  - assert (Hnot : ~ lacks_attribute node "type" "module")
      by (intros H; apply Hl in H; discriminate).
    split; split.
    + intros H. elim (Hnot H).
    + intros H. symmetry in H. elim (Println_changes _ _ H).
    + reflexivity.
    + intros _. exact Hnot.
  - assert (Hyes : lacks_attribute node "type" "module")
      by (apply Hl; reflexivity).
    split; split.
    + reflexivity.
    + intros _. exact Hyes.
    + intros H. elim (H Hyes).
    + intros H. elim (Println_changes _ _ H).
Qed.

Lemma LintLazyLoading_script_witness :
  isElement (element "script" [attr "src" "a.js"] []) "script" = true
  /\ Spec.unique_keys (element "script" [attr "src" "a.js"] [])
  /\ LintLazyLoading newReport (element "script" [attr "src" "a.js"] [])
       "f.html"
     = Println newReport [OString "f.html";
                          OString "<script> missing type=module"].
Proof.
  assert (Hu : Spec.unique_keys (element "script" [attr "src" "a.js"] [])).
  { unfold Spec.unique_keys. simpl. constructor; [intros [] | constructor]. }
  split; [reflexivity | split; [exact Hu |]].
  apply (proj1 (LintLazyLoading_script newReport
                  (element "script" [attr "src" "a.js"] []) "f.html"
                  eq_refl Hu)).
  intros a [Ha | []] Hk. subst a. discriminate Hk.
Defined.

(** X18.  On an [img] element whose attribute keys are unique,
    [LintWidthAndHeight] reports each of the two attributes on its own:
    nothing when both have a non-empty value, the width line alone when
    only the width is missing or empty, the height line alone when only
    the height is. *)
Theorem LintWidthAndHeight_one_missing (r : Report) (node : Node) (p : string) :
  isElement node "img" = true -> Spec.unique_keys node ->
  (~ lacks_nonempty node "width" -> ~ lacks_nonempty node "height" ->
   LintWidthAndHeight r node p = r)
  /\ (lacks_nonempty node "width" -> ~ lacks_nonempty node "height" ->
      LintWidthAndHeight r node p
      = Println r [OString p; OString "<img> missing width"])
  /\ (~ lacks_nonempty node "width" -> lacks_nonempty node "height" ->
      LintWidthAndHeight r node p
      = Println r [OString p; OString "<img> missing height"]).
Proof.
  intros Himg Hu. unfold LintWidthAndHeight. rewrite Himg.
  rewrite !(hasAttribute_unique_keys (Attr node)) by exact Hu.
  pose proof (has_attribute_wildcard_false node "width") as Hw.
  pose proof (has_attribute_wildcard_false node "height") as Hh.
  destruct (Spec.has_attribute (Attr node) "width" "*");
    destruct (Spec.has_attribute (Attr node) "height" "*"); simpl;
    repeat split; intros H1 H2;
    try reflexivity;
    try (elim H1; apply Hw; reflexivity);
    try (elim H2; apply Hh; reflexivity);
    try (apply Hw in H1; discriminate);
    try (apply Hh in H2; discriminate).
Qed.

Lemma LintWidthAndHeight_one_missing_witness :
  isElement (element "img" [attr "width" "0"; attr "height" ""] []) "img" = true
  /\ Spec.unique_keys (element "img" [attr "width" "0"; attr "height" ""] [])
  /\ LintWidthAndHeight newReport
       (element "img" [attr "width" "0"; attr "height" ""] []) "f.html"
     = Println newReport [OString "f.html"; OString "<img> missing height"].
Proof.
  assert (Hu : Spec.unique_keys
                 (element "img" [attr "width" "0"; attr "height" ""] [])).
  { unfold Spec.unique_keys. simpl. constructor.
    - intros [H | []]. discriminate H.
    - constructor; [intros [] | constructor]. }
  split; [reflexivity | split; [exact Hu |]].
  apply (proj2 (proj2 (LintWidthAndHeight_one_missing newReport
                         (element "img" [attr "width" "0"; attr "height" ""] [])
                         "f.html" eq_refl Hu))).
  - intros H. specialize (H (attr "width" "0") (or_introl eq_refl) eq_refl).
    discriminate H.
  - intros a [Ha | [Ha | []]] Hk; subst a; [discriminate Hk | reflexivity].
Defined.

Lemma hasParent_true_iff ps tag :
  hasParent ps tag = true <-> exists q, In q ps /\ isElement q tag = true.
Proof.
  rewrite hasParent_has_ancestor. unfold Spec.has_ancestor.
  apply existsb_exists.
Qed.

(** X19.  On a text node [LintCurlyQuotes] records nothing exactly when
    the text holds no straight quote or some ancestor, at any distance, is
    a [pre], [code], [script] or [style] element; otherwise it records its
    one line. *)
Theorem LintCurlyQuotes_text
        (r : Report) (ps : list Node) (node : Node) (p : string) :
  NodeType_eqb (Type_ node) TextNode = true ->
  (LintCurlyQuotes r ps node p = r
   <-> strings.ContainsAny (Data node) straightQuotes = false
       \/ under ps ["pre"; "code"; "script"; "style"])
  /\ (LintCurlyQuotes r ps node p = r
      \/ LintCurlyQuotes r ps node p
         = Println r [OString p; OString "contains non-curly quotes text node";
                      OString (Data node)]).
Proof.
  intros Ht. unfold LintCurlyQuotes. rewrite Ht.
  assert (Himg : isElement node "img" = false).
  { unfold isElement. destruct (Type_ node); try discriminate; reflexivity. }
  rewrite Himg. simpl.
  pose proof (hasParent_true_iff ps "pre") as Hpre.
  pose proof (hasParent_true_iff ps "code") as Hcode.
  pose proof (hasParent_true_iff ps "script") as Hscript.
  pose proof (hasParent_true_iff ps "style") as Hstyle.
  assert (Hin : forall tag, hasParent ps tag = true ->
                  In tag ["pre"; "code"; "script"; "style"] ->
                  under ps ["pre"; "code"; "script"; "style"]).
  { intros tag H Htag. apply hasParent_true_iff in H.
    destruct H as [q [Hq Hel]]. exists q, tag. auto. }
  destruct (hasParent ps "pre") eqn:E1;
    [split; [split; [intros _; right; apply (Hin "pre"); simpl; auto
                    | reflexivity] | left; reflexivity] |].
  destruct (hasParent ps "code") eqn:E2;
    [split; [split; [intros _; right; apply (Hin "code"); simpl; auto
                    | reflexivity] | left; reflexivity] |].
  destruct (hasParent ps "script") eqn:E3;
    [split; [split; [intros _; right; apply (Hin "script"); simpl; auto
                    | reflexivity] | left; reflexivity] |].
  destruct (hasParent ps "style") eqn:E4;
    [split; [split; [intros _; right; apply (Hin "style"); simpl; auto
                    | reflexivity] | left; reflexivity] |].
  simpl. destruct (strings.ContainsAny (Data node) straightQuotes).
  - split; [| right; reflexivity]. split.
    + intros H. elim (Println_changes _ _ H).
    + intros [H | [q [tag [Hq [Htag Hel]]]]]; [discriminate |].
      assert (Hp : hasParent ps tag = true)
        by (apply hasParent_true_iff; exists q; auto).
      simpl in Htag.
      destruct Htag as [H | [H | [H | [H | []]]]]; subst tag; congruence.
  - split; [| left; reflexivity]. split; [intros _; left |]; reflexivity.
Qed.

Lemma LintCurlyQuotes_text_witness :
  NodeType_eqb (Type_ (text "it's")) TextNode = true
  /\ LintCurlyQuotes newReport
       [element "b" [] []; element "code" [] []; element "body" [] []]
       (text "it's") "f.html"
     = newReport.
Proof.
  split; [reflexivity |].
  apply (proj1 (LintCurlyQuotes_text newReport
                  [element "b" [] []; element "code" [] [];
                   element "body" [] []]
                  (text "it's") "f.html" eq_refl)).
  right. exists (element "code" [] []), "code".
  split; [right; left; reflexivity | split; [right; left |]; reflexivity].
Defined.

Lemma lintQuotedAttributes_lines p attrs :
  forall r,
    fold_left (lintQuotedAttribute p) attrs r
    = recordAll r
        (map (fun _ => Sprintln
                [OString p;
                 OString "<img> alt or title contains non-curly quotes"])
             (filter quotedAttribute attrs)).
Proof.
  induction attrs as [| a attrs IH]; intros r; simpl.
  - reflexivity.
  - rewrite IH. unfold lintQuotedAttribute at 1, quotedAttribute at 2.
    destruct ((Key a =? "alt") || (Key a =? "title")); simpl;
      [| reflexivity].
    destruct (strings.ContainsAny (Val a) straightQuotes); reflexivity.
Qed.

(** X20.  On an [img] element [LintCurlyQuotes] records one line for each
    attribute that is an [alt] or a [title] and holds a straight quote in
    its value, in the order of the attributes: two such attributes give
    two lines, and the other attributes none. *)
Theorem LintCurlyQuotes_img
        (r : Report) (ps : list Node) (node : Node) (p : string) :
  isElement node "img" = true ->
  Writer (LintCurlyQuotes r ps node p)
  = Writer r
    ++ map (fun _ => Sprintln
              [OString p;
               OString "<img> alt or title contains non-curly quotes"])
         (filter quotedAttribute (Attr node)).
Proof.
  intros Himg. unfold LintCurlyQuotes. rewrite Himg.
  assert (Ht : NodeType_eqb (Type_ node) TextNode = false).
  { unfold isElement in Himg. apply andb_true_iff in Himg.
    destruct Himg as [Hty _]. destruct (Type_ node); try discriminate.
    reflexivity. }
  rewrite Ht. simpl. rewrite lintQuotedAttributes_lines.
  apply Writer_recordAll.
Qed.

Lemma LintCurlyQuotes_img_witness :
  isElement (element "img" [attr "alt" "it's"; attr "src" "'";
                            attr "title" "'wow'"] []) "img" = true
  /\ List.length
       (Writer (LintCurlyQuotes newReport []
                  (element "img" [attr "alt" "it's"; attr "src" "'";
                                  attr "title" "'wow'"] []) "f.html"))
     = 2%nat.
Proof.
  split; [reflexivity |].
  rewrite (LintCurlyQuotes_img newReport []
             (element "img" [attr "alt" "it's"; attr "src" "'";
                             attr "title" "'wow'"] []) "f.html" eq_refl).
  reflexivity.
Defined.

(** X21.  [hasChild] lies between two searches: it finds every element of
    the tag that is a child of the node, and whatever it finds is an
    element of the tag somewhere below the node; on a node with no
    children it answers [false]. *)
Theorem hasChild_between (node : Node) (tag : string) :
  ((exists c, In c (Children node) /\ isElement c tag = true) ->
   hasChild node tag = true)
  /\ (hasChild node tag = true -> Spec.has_descendant node tag = true)
  /\ (Children node = [] -> hasChild node tag = false).
Proof.
  split; [apply hasChild_direct | split; [apply hasChild_has_descendant |]].
  destruct node as [t d a cs]. simpl. intros H. subst cs. reflexivity.
Qed.

Lemma hasChild_between_witness :
  hasChild (element "figure" [] [text "x"; element "figcaption" [] []])
           "figcaption" = true.
Proof.
  apply (proj1 (hasChild_between
                  (element "figure" [] [text "x"; element "figcaption" [] []])
                  "figcaption")).
  exists (element "figcaption" [] []).
  split; [right; left; reflexivity | reflexivity].
Defined.

(** X22.  On a [figure] element [LintFigureHasFigcaption] records nothing
    when a [figcaption] is among the children of the element, and records
    its line when no [figcaption] is anywhere below it. *)
Theorem LintFigureHasFigcaption_figure (r : Report) (node : Node) (p : string) :
  isElement node "figure" = true ->
  ((exists c, In c (Children node) /\ isElement c "figcaption" = true) ->
   LintFigureHasFigcaption r node p = r)
  /\ (Spec.has_descendant node "figcaption" = false ->
      LintFigureHasFigcaption r node p
      = Println r [OString p; OString "<figure> missing <figcaption> child"]).
Proof.
  intros Hf. unfold LintFigureHasFigcaption. rewrite Hf. split.
  - intros Hc. rewrite (hasChild_direct node "figcaption" Hc). reflexivity.
  - intros Hd. destruct (hasChild node "figcaption") eqn:Hh.
    + rewrite (hasChild_has_descendant node "figcaption" Hh) in Hd.
      discriminate.
    + reflexivity.
Qed.

Lemma LintFigureHasFigcaption_figure_witness :
  isElement (element "figure" [] [element "p" [] [text "hello"]]) "figure"
  = true
  /\ LintFigureHasFigcaption newReport
       (element "figure" [] [element "p" [] [text "hello"]]) "f.html"
     = Println newReport [OString "f.html";
                          OString "<figure> missing <figcaption> child"].
Proof.
  split; [reflexivity |].
  apply (proj2 (LintFigureHasFigcaption_figure newReport
                  (element "figure" [] [element "p" [] [text "hello"]])
                  "f.html" eq_refl)).
  reflexivity.
Defined.

(* ================================================================== *)
(** ** The walk as a sum of its parts, and the count at the bounds *)
(* ================================================================== *)

Lemma Lint_children_lines time_Parse up p cs :
  forall r,
    fold_left (fun r c => Lint time_Parse r up c p) cs r
    = recordAll r
        (List.concat (map (fun c => Writer (Lint time_Parse newReport up c p)) cs)).
Proof.
  induction cs as [| c cs IH]; intros r; simpl.
  - reflexivity.
  - rewrite IH, recordAll_app, <- (Lint_recordAll time_Parse r up c p).
    reflexivity.
Qed.

(** X23.  The lines of a walk are the lines of the rules on the node,
    then the lines of the walk of each child in turn, a child being walked
    with the node put before the ancestors: what is recorded for one
    subtree does not depend on its siblings. *)
Theorem Lint_lines_by_subtree
        (time_Parse : string -> string -> bool)
        (ps : list Node) (node : Node) (p : string) :
  Writer (Lint time_Parse newReport ps node p)
  = Writer (lintNode time_Parse newReport ps node p)
    ++ List.concat (map (fun c => Writer (Lint time_Parse newReport (node :: ps) c p))
                 (Children node)).
Proof.
  rewrite Lint_unfold, Lint_children_lines. apply Writer_recordAll.
Qed.

Lemma wrap_wrap_add (x y : Z) :
  GoInt.wrap (GoInt.wrap x + y) = GoInt.wrap (x + y).
Proof.
  unfold GoInt.wrap. f_equal.
  replace ((x + 2 ^ 63) mod 2 ^ 64 - 2 ^ 63 + y + 2 ^ 63)%Z
    with ((x + 2 ^ 63) mod 2 ^ 64 + y)%Z by lia.
  rewrite Zplus_mod_idemp_l. f_equal. lia.
Qed.

Lemma wrap_is_inRange (z : Z) : GoInt.inRange (GoInt.wrap z).
Proof.
  unfold GoInt.inRange, GoInt.wrap, GoInt.minInt, GoInt.maxInt.
  pose proof (Z.mod_pos_bound (z + 2 ^ 63) (2 ^ 64)) as H. lia.
Qed.

Lemma ErrorCount_recordAll_wrap (ds : list string) :
  forall r, GoInt.inRange (ErrorCount r) ->
            ErrorCount (recordAll r ds)
            = GoInt.wrap (ErrorCount r + len ds).
Proof.
  induction ds as [| d ds IH]; intros r Hr.
  - simpl. unfold len. simpl. rewrite Z.add_0_r. symmetry.
    apply wrap_inRange. exact Hr.
  - change (recordAll r (d :: ds)) with (recordAll (record r d) ds).
    rewrite IH by (simpl; apply wrap_is_inRange).
    simpl ErrorCount. unfold GoInt.add. rewrite wrap_wrap_add. f_equal.
    unfold len. simpl List.length. lia.
Qed.

(** X24.  The count is kept with the wrap-around of [int]: after a walk it
    is the count before plus the number of lines recorded, folded into the
    range of [int], and it is still an [int]; a [Println] on a count of
    [maxInt] gives [minInt]. *)
Theorem ErrorCount_wraps
        (time_Parse : string -> string -> bool)
        (r : Report) (ps : list Node) (node : Node) (p : string) :
  GoInt.inRange (ErrorCount r) ->
  ErrorCount (Lint time_Parse r ps node p)
  = GoInt.wrap (ErrorCount r
                + len (Writer (Lint time_Parse newReport ps node p)))
  /\ GoInt.inRange (ErrorCount (Lint time_Parse r ps node p))
  /\ (ErrorCount r = GoInt.maxInt ->
      forall objects, ErrorCount (Println r objects) = GoInt.minInt).
Proof.
  intros Hr.
  assert (H : ErrorCount (Lint time_Parse r ps node p)
              = GoInt.wrap
                  (ErrorCount r
                   + len (Writer (Lint time_Parse newReport ps node p)))).
  { rewrite (Lint_recordAll time_Parse r ps node p) at 1.
    apply ErrorCount_recordAll_wrap. exact Hr. }
  split; [exact H | split].
  - rewrite H. apply wrap_is_inRange.
  - intros Hmax objects. simpl. rewrite Hmax. reflexivity.
Qed.

Lemma ErrorCount_wraps_witness :
  GoInt.inRange (ErrorCount (mkReport [] GoInt.maxInt))
  /\ ErrorCount (Println (mkReport [] GoInt.maxInt) [OString "x"])
     = GoInt.minInt.
Proof.
  assert (Hr : GoInt.inRange (ErrorCount (mkReport [] GoInt.maxInt)))
    by (unfold GoInt.inRange, GoInt.minInt, GoInt.maxInt; simpl; lia).
  split; [exact Hr |].
  apply (proj2 (proj2 (ErrorCount_wraps time.Parse (mkReport [] GoInt.maxInt)
                         [] (text "x") "f.html" Hr))).
  reflexivity.
Defined.

(* ================================================================== *)
(** ** The driver *)
(* ================================================================== *)

Lemma lintFiles_isPanicked time_Parse args :
  forall r,
    isPanicked (lintFiles time_Parse r args) = existsb fileUnderflows args.
Proof.
  induction args as [| [pathname f] rest IH]; intros r; simpl.
  - reflexivity.
  - destruct f as [e | e | document e | document tokens];
      unfold fileUnderflows at 1; simpl; try apply IH.
    pose proof (nestingLoop_isPanicked pathname tokens
                  (Lint time_Parse r [] document pathname) []) as Hp.
    simpl in Hp. unfold LintNesting.
    destruct (nestingLoop (Lint time_Parse r [] document pathname) []
                tokens pathname); simpl in Hp; rewrite <- Hp; simpl.
    + apply IH.
    + reflexivity.
Qed.

(** X25.  [main] ends in a panic exactly when one of the files it could
    open, parse and rewind has a token stream that underflows the stack;
    files that fail to open, to parse or to rewind never make it panic,
    and neither does standard input, which gets no nesting scan. *)
Theorem main_panics_iff_a_file_underflows
        (time_Parse : string -> string -> bool)
        (args : list (string * File)) (stdin : Stdin) :
  isPanicked (main time_Parse args stdin) = existsb fileUnderflows args.
Proof.
  unfold main.
  pose proof (lintFiles_isPanicked time_Parse args newReport) as H.
  destruct (lintFiles time_Parse newReport args) as [report | report];
    simpl in H; rewrite <- H.
  - destruct (len args =? 0)%Z; [destruct stdin |]; reflexivity.
  - reflexivity.
Qed.

(** X26.  Standard input is read only when no path is given: with one
    path or more, [main] ends the same whatever standard input holds. *)
Theorem main_ignores_stdin_with_args
        (time_Parse : string -> string -> bool)
        (args : list (string * File)) (stdin stdin' : Stdin) :
  args <> [] -> main time_Parse args stdin = main time_Parse args stdin'.
Proof.
  intros Hne. unfold main.
  destruct (lintFiles time_Parse newReport args); [| reflexivity].
  destruct (len_zero args) as [Hz _].
  destruct (len args =? 0)%Z; [| reflexivity].
  elim Hne. apply Hz. reflexivity.
Qed.

Lemma main_ignores_stdin_with_args_witness :
  [("f.html", OpenFails "open f.html: no such file or directory")] <> []
  /\ main time.Parse
       [("f.html", OpenFails "open f.html: no such file or directory")]
       (StdinParseFails "e")
     = main time.Parse
         [("f.html", OpenFails "open f.html: no such file or directory")]
         (StdinParsed anchorDocument).
Proof.
  assert (Hne : [("f.html",
                  OpenFails "open f.html: no such file or directory")] <> [])
    by discriminate.
  split; [exact Hne |].
  apply (main_ignores_stdin_with_args time.Parse _ _ _ Hne).
Defined.

(** X27.  A panic in the scan of one file ends the run there: the files
    after it are neither walked nor scanned, and the report holds what was
    recorded up to the underflow line of that file. *)
Theorem lintFiles_stops_at_panic
        (time_Parse : string -> string -> bool) (r : Report)
        (pathname : string) (document : Node) (tokens : list Token)
        (rest rest' : list (string * File)) :
  underflows 0 tokens = true ->
  lintFiles time_Parse r ((pathname, Readable document tokens) :: rest)
  = lintFiles time_Parse r ((pathname, Readable document tokens) :: rest')
  /\ isPanicked
       (lintFiles time_Parse r ((pathname, Readable document tokens) :: rest))
     = true.
Proof.
  intros Hu. simpl.
  pose proof (nestingLoop_isPanicked pathname tokens
                (Lint time_Parse r [] document pathname) []) as Hp.
  simpl in Hp. rewrite Hu in Hp. unfold LintNesting.
  destruct (nestingLoop (Lint time_Parse r [] document pathname) []
              tokens pathname); simpl in Hp; [discriminate |].
  split; reflexivity.
Qed.

Lemma lintFiles_stops_at_panic_witness :
  underflows 0 [mkToken EndTagToken "a"] = true
  /\ lintFiles time.Parse newReport
       [("a.html", Readable anchorDocument [mkToken EndTagToken "a"]);
        ("b.html", OpenFails "e")]
     = lintFiles time.Parse newReport
         [("a.html", Readable anchorDocument [mkToken EndTagToken "a"])].
Proof.
  split; [reflexivity |].
  apply (proj1 (lintFiles_stops_at_panic time.Parse newReport "a.html"
                  anchorDocument [mkToken EndTagToken "a"]
                  [("b.html", OpenFails "e")] [] eq_refl)).
Defined.

(** X28.  On an [img] element [LintImgNestedInFigure] records nothing
    exactly when one of the ancestors of the element, at any distance, is
    a [figure] element; with no such ancestor it records its one line.
    The attributes and the children of the element have no part in it. *)
Theorem LintImgNestedInFigure_img
        (r : Report) (ps : list Node) (node : Node) (p : string) :
  isElement node "img" = true ->
  (LintImgNestedInFigure r ps node p = r
   <-> exists q, In q ps /\ isElement q "figure" = true)
  /\ (~ (exists q, In q ps /\ isElement q "figure" = true) ->
      LintImgNestedInFigure r ps node p
      = Println r [OString p; OString "<img> not inside <figure>"]).
Proof.
  intros Himg. unfold LintImgNestedInFigure. rewrite Himg.
  pose proof (hasParent_true_iff ps "figure") as Hp.
  destruct (hasParent ps "figure"); simpl.
  - split.
    + split; [intros _; apply Hp; reflexivity | reflexivity].
    + intros Hno. elim Hno. apply Hp. reflexivity.
  - split.
    + split.
      * intros H. elim (Println_changes _ _ H).
      * intros H. apply Hp in H. discriminate.
    + reflexivity.
Qed.

Lemma LintImgNestedInFigure_img_witness :
  isElement (element "img" [] []) "img" = true
  /\ LintImgNestedInFigure newReport
       [element "a" [] []; element "figure" [] []; element "body" [] []]
       (element "img" [] []) "f.html"
     = newReport.
Proof.
  split; [reflexivity |].
  apply (proj1 (LintImgNestedInFigure_img newReport
                  [element "a" [] []; element "figure" [] [];
                   element "body" [] []]
                  (element "img" [] []) "f.html" eq_refl)).
  exists (element "figure" [] []).
  split; [right; left; reflexivity | reflexivity].
Defined.
